(** * AIgram backend: seeding, hydration, likes and record validation

    A shallow embedding of [src/main.py] and [src/schemas.py].

    - Python dictionaries (MongoDB documents) are finite maps from field
      names to dynamically typed values.
    - The process-wide handle [db], the pseudo-random generator and the
      wall clock form the world that every handler threads through an
      exception-and-state monad.
    - Pydantic models are field tables; building a model runs the table
      against the keyword arguments. *)

From Stdlib Require Import ZArith NArith String Ascii HexadecimalString HexadecimalN.
From stdpp Require Import gmap strings list fin_maps pretty sorting.

#[local] Set Warnings "-register-all,-clear-no-such-hyp".
Local Open Scope string_scope.
Local Open Scope Z_scope.

(** ** Python values *)

Module Py.

(** BSON / Python values held in documents.  [VOid] is a [bson.ObjectId]
    (its bytes, read as a number), [VTime] a UTC [datetime] counted in
    microseconds since the epoch: aware as [_now()] gives it, naive and
    a whole number of milliseconds once it has been through the store. *)
Inductive value :=
  | VNone
  | VInt (z : Z)
  | VStr (s : string)
  | VOid (o : N)
  | VTime (t : Z)
  | VList (l : list value)
  | VDict (d : list (string * value)).

(** [d.get(k)] on a dictionary literal kept in insertion order. *)
Fixpoint assoc {A} (k : string) (l : list (string * A)) : option A :=
  match l with
  | [] => None
  | (k', v) :: l' => if String.eqb k k' then Some v else assoc k l'
  end.

(** *** ObjectId: [str(oid)] and [ObjectId(text)] *)

Definition zeros (n : nat) : string := string_of_list_ascii (replicate n "0"%char).

(** [str(oid)]: lower-case hexadecimal, left-padded to 24 characters. *)
Definition oid_str (o : N) : string :=
  let s := NilZero.string_of_uint (N.to_hex_uint o) in
  zeros (24 - String.length s) +:+ s.

Definition lower_char (c : ascii) : ascii :=
  let n := nat_of_ascii c in
  if (65 <=? n)%nat && (n <=? 90)%nat then ascii_of_nat (n + 32) else c.

(** [text.lower()] on ASCII text. *)
Fixpoint lower (s : string) : string :=
  match s with
  | EmptyString => EmptyString
  | String c s' => String (lower_char c) (lower s')
  end.

(** Reading back a hexadecimal text (either case). *)
Definition unhex (s : string) : option N :=
  N.of_hex_uint <$> NilEmpty.uint_of_string (lower s).

(** Texts are kept as their UTF-8 bytes; a byte [10xxxxxx] continues the
    character that the bytes before it began. *)
Definition is_cont (c : ascii) : bool :=
  let n := nat_of_ascii c in (128 <=? n)%nat && (n <? 192)%nat.

(** [len(text)]: the number of characters. *)
Fixpoint len (s : string) : nat :=
  match s with
  | EmptyString => O
  | String c s' => if is_cont c then len s' else S (len s')
  end.

(** [text[:n]]: the first [n] characters. *)
Fixpoint take_chars (n : nat) (s : string) : string :=
  match s with
  | EmptyString => EmptyString
  | String c s' =>
      if is_cont c then String c (take_chars n s')
      else match n with
           | O => EmptyString
           | S n' => String c (take_chars n' s')
           end
  end.

(** White space as [bytes.fromhex] sees it. *)
Definition hex_space (c : ascii) : bool :=
  let n := nat_of_ascii c in ((9 <=? n)%nat && (n <=? 13)%nat) || (n =? 32)%nat.

Definition hex_digit (c : ascii) : option N :=
  let n := nat_of_ascii c in
  if (48 <=? n)%nat && (n <=? 57)%nat then Some (N.of_nat (n - 48))
  else if (97 <=? n)%nat && (n <=? 102)%nat then Some (N.of_nat (n - 87))
  else if (65 <=? n)%nat && (n <=? 70)%nat then Some (N.of_nat (n - 55))
  else None.

(** [bytes.fromhex(text)]: two hexadecimal digits for each byte, white
    space skipped before a pair and at the end; [None] is its
    [ValueError]. *)
Fixpoint fromhex (s : string) : option (list N) :=
  match s with
  | EmptyString => Some []
  | String c s' =>
      if hex_space c then fromhex s'
      else
        match hex_digit c, s' with
        | Some top, String c' s'' =>
            match hex_digit c', fromhex s'' with
            | Some bot, Some rest => Some ((16 * top + bot)%N :: rest)
            | _, _ => None
            end
        | _, _ => None
        end
  end.

(** An [ObjectId] is the bytes it was built from.  The store generates
    twelve of them, read here as a number below [2 ^ 96]; fewer than twelve
    (all that [fromhex] can leave of 24 characters with white space among
    them) are read as a number from [2 ^ 96] on, which no twelve bytes are. *)
Definition oid_of_bytes (bs : list N) : N :=
  let n := foldl (fun acc b => (256 * acc + b)%N) 0%N bs in
  if decide (length bs = 12%nat) then n
  else (2 ^ 96 + 2 ^ (8 * N.of_nat (length bs)) + n)%N.

(** [ObjectId(text)]: a text of 24 characters that [bytes.fromhex] reads;
    [None] is [bson.errors.InvalidId]. *)
Definition ObjectId (s : string) : option N :=
  if decide (len s = 24%nat) then oid_of_bytes <$> fromhex s else None.

(** [repr(text)]: single quotes unless the text has one and no double
    quote; the quote and the backslash escaped, control characters as
    [\t], [\n], [\r] or [\xNN].  Characters outside ASCII are kept as
    they are, which is what Python does with the printable ones. *)
Definition hex_nibble (n : nat) : ascii :=
  ascii_of_nat (if (n <? 10)%nat then 48 + n else 87 + n).

Definition has_char (c : ascii) (s : string) : bool :=
  existsb (Ascii.eqb c) (list_ascii_of_string s).

Definition repr_char (quote c : ascii) : string :=
  let n := nat_of_ascii c in
  if Ascii.eqb c quote || Ascii.eqb c "092"%char then String "092"%char (String c "")
  else if (n =? 9)%nat then String "092"%char "t"
  else if (n =? 10)%nat then String "092"%char "n"
  else if (n =? 13)%nat then String "092"%char "r"
  else if (n <? 32)%nat || (n =? 127)%nat then
    String "092"%char (String "x" (String (hex_nibble (n / 16)) (String (hex_nibble (n mod 16)) "")))
  else String c "".

Definition repr_str (s : string) : string :=
  let quote := if has_char "039"%char s && negb (has_char "034"%char s)
               then "034"%char else "039"%char in
  String quote
    (String.concat "" (repr_char quote <$> list_ascii_of_string s) +:+ String quote "").

(** *** datetime: [isoformat()] *)

Definition pad (w : nat) (n : Z) : string :=
  let s := pretty (Z.to_N n) in zeros (w - String.length s) +:+ s.

(** Proleptic Gregorian date of a day number counted from 1970-01-01. *)
Definition civil_from_days (days : Z) : Z * Z * Z :=
  let z := days + 719468 in
  let era := z / 146097 in
  let doe := z - era * 146097 in
  let yoe := (doe - doe / 1460 + doe / 36524 - doe / 146096) / 365 in
  let doy := doe - (365 * yoe + yoe / 4 - yoe / 100) in
  let mp := (5 * doy + 2) / 153 in
  let d := doy - (153 * mp + 2) / 5 + 1 in
  let m := if mp <? 10 then mp + 3 else mp - 9 in
  let y := yoe + era * 400 + (if m <=? 2 then 1 else 0) in
  (y, m, d).

(** Date and time of day of a datetime, without its offset: the fraction
    is printed only when the microsecond part is not zero. *)
Definition iso_local (sep : string) (t : Z) : string :=
  let us := t mod 1000000 in
  let secs := t / 1000000 in
  let sod := secs mod 86400 in
  let '(y, m, d) := civil_from_days (secs / 86400) in
  pad 4 y +:+ "-" +:+ pad 2 m +:+ "-" +:+ pad 2 d +:+ sep +:+
  pad 2 (sod / 3600) +:+ ":" +:+ pad 2 (sod mod 3600 / 60) +:+ ":" +:+ pad 2 (sod mod 60) +:+
  (if us =? 0 then "" else "." +:+ pad 6 us).

(** [t.isoformat()] for an aware UTC datetime, as [_now()] gives them. *)
Definition isoformat (t : Z) : string := iso_local "T" t +:+ "+00:00".

(** [t.isoformat()] and [str(t)] for a naive datetime, as the driver gives
    them for a stored one. *)
Definition isoformat_naive (t : Z) : string := iso_local "T" t.

Definition str_datetime (t : Z) : string := iso_local " " t.

(** [repr(t)] for a naive datetime: a second that is zero is left out
    when the microsecond is. *)
Definition repr_datetime (t : Z) : string :=
  let us := t mod 1000000 in
  let secs := t / 1000000 in
  let sod := secs mod 86400 in
  let '(y, m, d) := civil_from_days (secs / 86400) in
  "datetime.datetime(" +:+ pretty y +:+ ", " +:+ pretty m +:+ ", " +:+ pretty d +:+ ", " +:+
  pretty (sod / 3600) +:+ ", " +:+ pretty (sod mod 3600 / 60) +:+
  (if us =? 0 then (if sod mod 60 =? 0 then "" else ", " +:+ pretty (sod mod 60))
   else ", " +:+ pretty (sod mod 60) +:+ ", " +:+ pretty us) +:+ ")".

(** [timedelta(hours=h)] in microseconds. *)
Definition timedelta_hours (h : Z) : Z := h * 3600 * 1000000.

(** *** [repr(v)], and [str(v)] inside f-strings

    A datetime in a document is a fetched one, which is naive. *)
Fixpoint py_repr (v : value) : string :=
  match v with
  | VNone => "None"
  | VInt z => pretty z
  | VStr s => repr_str s
  | VOid o => "ObjectId('" +:+ oid_str o +:+ "')"
  | VTime t => repr_datetime t
  | VList l => "[" +:+ String.concat ", " (map py_repr l) +:+ "]"
  | VDict d =>
      "{" +:+ String.concat ", " (map (fun kv => repr_str kv.1 +:+ ": " +:+ py_repr kv.2) d)
      +:+ "}"
  end.

Definition py_str (v : value) : string :=
  match v with
  | VStr s => s
  | VOid o => oid_str o
  | VTime t => str_datetime t
  | _ => py_repr v
  end.

(** [text.split()[0]]: the first whitespace-separated word; [None] stands
    for the [IndexError] of a text without any word. *)
Definition is_space (c : ascii) : bool :=
  let n := nat_of_ascii c in ((9 <=? n)%nat && (n <=? 13)%nat) || (n =? 32)%nat.

Fixpoint take_word (s : string) : string :=
  match s with
  | EmptyString => EmptyString
  | String c s' => if is_space c then EmptyString else String c (take_word s')
  end.

Fixpoint split_first (s : string) : option string :=
  match s with
  | EmptyString => None
  | String c s' => if is_space c then split_first s' else Some (take_word s)
  end.

(** [" ".join(parts)] *)
Fixpoint join (sep : string) (parts : list string) : string :=
  match parts with
  | [] => ""
  | [p] => p
  | p :: ps => p +:+ sep +:+ join sep ps
  end.

(** [fastapi.encoders.jsonable_encoder] on a value.  [None], numbers and
    texts pass; a datetime becomes its ISO text; lists and dictionaries are
    walked in order, a dictionary without the keys that begin with [_sa].
    The encoder has no rule for an [ObjectId], which is neither iterable
    nor has a [__dict__]: [None] here is the [ValueError] it raises then. *)
Definition sa_key (k : string) : bool := String.prefix "_sa" k.

Fixpoint encode (v : value) : option value :=
  match v with
  | VOid _ => None
  | VTime t => Some (VStr (isoformat_naive t))
  | VList l =>
      match (fix go (l : list value) : option (list value) :=
               match l with
               | [] => Some []
               | x :: l' =>
                   match encode x, go l' with
                   | Some y, Some ys => Some (y :: ys)
                   | _, _ => None
                   end
               end) l with
      | Some l' => Some (VList l')
      | None => None
      end
  | VDict d =>
      match (fix go (d : list (string * value)) : option (list (string * value)) :=
               match d with
               | [] => Some []
               | (k, x) :: d' =>
                   if sa_key k then go d'
                   else
                     match encode x, go d' with
                     | Some y, Some ys => Some ((k, y) :: ys)
                     | _, _ => None
                     end
               end) d with
      | Some d' => Some (VDict d')
      | None => None
      end
  | _ => Some v
  end.

End Py.

(** ** Exceptions and the handler monad *)

Module Eff.

(** Python exceptions.  [HTTPException] is FastAPI's; every other class is
    kept by name with its message. *)
Inductive exc :=
  | HTTPException (status_code : Z) (detail : string)
  | PyError (cls : string) (msg : string).

(** [str(e)].  Starlette prints an [HTTPException] as ["<status>: <detail>"];
    the other classes print their message. *)
Definition exc_str (e : exc) : string :=
  match e with
  | HTTPException sc d => pretty sc +:+ ": " +:+ d
  | PyError _ msg => msg
  end.

Inductive result (A : Type) :=
  | Ok (a : A)
  | Raise (e : exc).
Arguments Ok {A} a.
Arguments Raise {A} e.

Definition TypeError_None {A} : result A :=
  Raise (PyError "TypeError" "'NoneType' object is not subscriptable").

End Eff.

(** ** Record schemas ([src/schemas.py]) *)

Module Schemas.
Import Py Eff.

(** The annotations used by the models. [TInt ge] carries the declared
    lower bound, when there is one. *)
Inductive ftype :=
  | TStr
  | TOptStr
  | TListStr
  | TInt (ge : option Z)
  | TLiteral (allowed : list string).

(** One declared attribute; [fdefault = None] is a required field
    ([Field(...)] or a bare annotation). *)
Record field := Field { fname : string; ftyp : ftype; fdefault : option value }.

Definition model := list field.

Definition required (n : string) (t : ftype) : field := Field n t None.
Definition optional (n : string) (t : ftype) (dflt : value) : field := Field n t (Some dflt).

Definition AuthorType : ftype := TLiteral ["character"; "user"].
Definition PostType : ftype := TLiteral ["image"; "video"].

Definition User : model :=
  [ required "username" TStr;
    optional "name" TOptStr VNone;
    optional "bio" TOptStr VNone;
    optional "avatar_url" TOptStr VNone ].

Definition Character : model :=
  [ required "username" TStr;
    required "name" TStr;
    optional "bio" TOptStr VNone;
    optional "avatar_url" TOptStr VNone;
    optional "interests" TListStr (VList []);
    optional "followers" (TInt (Some 0)) (VInt 0);
    optional "following" (TInt (Some 0)) (VInt 0) ].

Definition Post : model :=
  [ optional "author_type" AuthorType (VStr "character");
    required "author_id" TStr;
    optional "type" PostType (VStr "image");
    required "media_url" TStr;
    optional "caption" TOptStr VNone;
    optional "hashtags" TListStr (VList []);
    optional "like_count" (TInt (Some 0)) (VInt 0);
    optional "comment_count" (TInt (Some 0)) (VInt 0) ].

Definition Story : model :=
  [ optional "author_type" AuthorType (VStr "character");
    required "author_id" TStr;
    required "media_url" TStr;
    optional "text_overlay" TOptStr VNone;
    optional "expires_at" TOptStr VNone ].

Definition Reel : model :=
  [ optional "author_type" AuthorType (VStr "character");
    required "author_id" TStr;
    required "media_url" TStr;
    optional "caption" TOptStr VNone;
    optional "like_count" (TInt None) (VInt 0);
    optional "comment_count" (TInt None) (VInt 0) ].

Definition Comment : model :=
  [ required "post_id" TStr;
    optional "author_type" AuthorType (VStr "character");
    required "author_id" TStr;
    required "text" TStr ].

Definition Conversation : model :=
  [ required "participant_ids" TListStr ].

Definition Message : model :=
  [ required "conversation_id" TStr;
    optional "author_type" AuthorType (VStr "character");
    required "author_id" TStr;
    optional "text" TOptStr VNone;
    optional "media_url" TOptStr VNone ].

Definition Notification : model :=
  [ required "user_id" TStr;
    required "type" (TLiteral ["like"; "comment"; "follow"]);
    required "actor_id" TStr;
    optional "actor_type" AuthorType (VStr "character");
    optional "post_id" TOptStr VNone;
    optional "message" TOptStr VNone ].

(** Every entity of the module, by class name. *)
Definition entities : list (string * model) :=
  [ ("User", User); ("Character", Character); ("Post", Post); ("Story", Story);
    ("Reel", Reel); ("Comment", Comment); ("Conversation", Conversation);
    ("Message", Message); ("Notification", Notification) ].

Definition is_str (v : value) : bool :=
  match v with VStr _ => true | _ => false end.

(** The value has the shape the annotation asks for.  Nothing is coerced:
    of the values at hand pydantic's lax mode would coerce one kind only,
    a text supplied for an [int] field, which it tries to read as a number. *)
Definition has_type (t : ftype) (v : value) : bool :=
  match t, v with
  | TStr, VStr _ => true
  | TOptStr, (VStr _ | VNone) => true
  | TListStr, VList l => forallb is_str l
  | TInt _, VInt _ => true
  | TLiteral _, _ => true
  | _, _ => false
  end.

(** The constraint carried by the annotation: membership for a literal,
    the lower bound for an integer. *)
Definition in_literal (allowed : list string) (v : value) : bool :=
  match v with
  | VStr s => existsb (String.eqb s) allowed
  | _ => false
  end.

Definition constraint_ok (t : ftype) (v : value) : bool :=
  match t, v with
  | TLiteral allowed, _ => in_literal allowed v
  | TInt (Some m), VInt z => m <=? z
  | _, _ => true
  end.

Definition ValidationError {A} (loc kind : string) : result A :=
  Raise (PyError "ValidationError" (loc +:+ ": " +:+ kind)).

(** The error kinds are pydantic's own codes. *)
Definition type_error_kind (t : ftype) : string :=
  match t with
  | TStr | TOptStr => "string_type"
  | TListStr => "list_type"
  | TInt _ => "int_type"
  | TLiteral _ => "literal_error"
  end.

Definition constraint_error_kind (t : ftype) : string :=
  match t with
  | TInt _ => "greater_than_equal"
  | _ => "literal_error"
  end.

(** One attribute: a missing argument falls back on the default (which is
    not validated) or fails; a supplied one is checked. *)
Definition validate_field (f : field) (arg : option value) : result value :=
  match arg with
  | None =>
      match fdefault f with
      | Some dflt => Ok dflt
      | None => ValidationError (fname f) "missing"
      end
  | Some v =>
      if negb (has_type (ftyp f) v) then ValidationError (fname f) (type_error_kind (ftyp f))
      else if negb (constraint_ok (ftyp f) v) then
        ValidationError (fname f) (constraint_error_kind (ftyp f))
      else Ok v
  end.

(** [Model(key=value, ...)]: the validated attributes in declaration order, or
    the [ValidationError].  Unknown keywords are ignored. *)
Fixpoint construct (m : model) (kwargs : list (string * value)) : result (list (string * value)) :=
  match m with
  | [] => Ok []
  | f :: m' =>
      match validate_field f (assoc (fname f) kwargs) with
      | Raise e => Raise e
      | Ok v =>
          match construct m' kwargs with
          | Raise e => Raise e
          | Ok rest => Ok ((fname f, v) :: rest)
          end
      end
  end.

Definition is_ValidationError {A} (r : result A) : Prop :=
  exists msg, r = Raise (PyError "ValidationError" msg).

End Schemas.

(** ** The document store behind [db]

    [pymongo] is outside the repository; this is the part of its behaviour
    the handlers rely on.  A collection is the list of its documents in
    insertion order; every stored document carries the [_id] the store gave
    it. *)

Module Store.
Import Py Eff.

Record doc := Doc { _id : N; fields : gmap string value }.

(** [d.get(k)] and [d[k] = v] on a fetched document. *)
Definition get (d : doc) (k : string) : option value :=
  if decide (k = "_id") then Some (VOid (_id d)) else fields d !! k.

Definition setitem (d : doc) (k : string) (v : value) : doc :=
  Doc (_id d) (<[k := v]> (fields d)).

(** [outage = Some text]: the server cannot be reached and every operation
    raises a [PyMongoError] with that text. *)
Record database := Database {
  colls : gmap string (list doc);
  next_oid : N;
  outage : option string
}.

(** [db[name]]: a collection that was never written to is empty. *)
Definition coll (d : database) (name : string) : list doc :=
  default [] (colls d !! name).

Definition set_coll (d : database) (name : string) (l : list doc) : database :=
  Database (<[name := l]> (colls d)) (next_oid d) (outage d).

Definition available {A} (d : database) (a : A) : result A :=
  match outage d with
  | Some text => Raise (PyError "PyMongoError" text)
  | None => Ok a
  end.

(** A value as the store keeps it and the driver gives it back: BSON
    counts a datetime in milliseconds, and a fetched datetime is naive. *)
Fixpoint to_bson (v : value) : value :=
  match v with
  | VTime t => VTime (t / 1000 * 1000)
  | VList l => VList (map to_bson l)
  | VDict d => VDict (map (fun kv => (kv.1, to_bson kv.2)) d)
  | _ => v
  end.

(** [insert_one]: the document gets a fresh [ObjectId] and goes last. *)
Definition insert_one (d : database) (name : string) (data : gmap string value) : database * N :=
  (Database (<[name := (coll d name ++ [Doc (next_oid d) (to_bson <$> data)])%list]> (colls d))
            (N.succ (next_oid d)) (outage d),
   next_oid d).

(** Equality of stored values. *)
Fixpoint value_eqb (a b : value) : bool :=
  match a, b with
  | VNone, VNone => true
  | VInt x, VInt y => x =? y
  | VStr x, VStr y => String.eqb x y
  | VOid x, VOid y => (x =? y)%N
  | VTime x, VTime y => x =? y
  | VList l1, VList l2 =>
      (fix go (l1 l2 : list value) : bool :=
         match l1, l2 with
         | [], [] => true
         | x :: l1', y :: l2' => value_eqb x y && go l1' l2'
         | _, _ => false
         end) l1 l2
  | VDict d1, VDict d2 =>
      (fix go (d1 d2 : list (string * value)) : bool :=
         match d1, d2 with
         | [], [] => true
         | (k1, x) :: d1', (k2, y) :: d2' => String.eqb k1 k2 && value_eqb x y && go d1' d2'
         | _, _ => false
         end) d1 d2
  | _, _ => false
  end.

(** Update operators. *)
Inductive update_op :=
  | Inc (k : string) (n : Z)
  | Set_ (k : string) (v : value).

(** One operator on one document: the new fields and whether anything
    changed.  [$inc] creates a missing field and refuses a field that is
    not a number. *)
Definition apply_op (op : update_op) (f : gmap string value) : result (gmap string value * bool) :=
  match op with
  | Inc k n =>
      match f !! k with
      | None => Ok (<[k := VInt n]> f, true)
      | Some (VInt z) => Ok (<[k := VInt (z + n)]> f, negb (n =? 0))
      | Some _ =>
          Raise (PyError "WriteError"
                   ("Cannot apply $inc to a value of non-numeric type. Field: " +:+ k))
      end
  | Set_ k v =>
      Ok (<[k := to_bson v]> f,
          match f !! k with Some old => negb (value_eqb old (to_bson v)) | None => true end)
  end.

Fixpoint apply_ops (ops : list update_op) (f : gmap string value) : result (gmap string value * bool) :=
  match ops with
  | [] => Ok (f, false)
  | op :: ops' =>
      match apply_op op f with
      | Raise e => Raise e
      | Ok (f', c) =>
          match apply_ops ops' f' with
          | Raise e => Raise e
          | Ok (f'', c') => Ok (f'', c || c')
          end
      end
  end.

(** [UpdateResult] *)
Record UpdateResult := { matched_count : Z; modified_count : Z }.

(** [update_one({"_id": oid}, ops)] on the documents of a collection: the
    first match is rewritten. *)
Fixpoint update_first (oid : N) (ops : list update_op) (l : list doc)
  : result (list doc * UpdateResult) :=
  match l with
  | [] => Ok ([], {| matched_count := 0; modified_count := 0 |})
  | d :: l' =>
      if decide (_id d = oid) then
        match apply_ops ops (fields d) with
        | Raise e => Raise e
        | Ok (f', changed) =>
            Ok (Doc (_id d) f' :: l',
                {| matched_count := 1; modified_count := if changed then 1 else 0 |})
        end
      else
        match update_first oid ops l' with
        | Raise e => Raise e
        | Ok (l'', r) => Ok (d :: l'', r)
        end
  end.

(** [find_one({"_id": oid})] *)
Definition find_one (oid : N) (l : list doc) : option doc :=
  List.find (fun d => bool_decide (_id d = oid)) l.

(** [find({"_id": {"$in": vals}})] *)
Definition find_id_in (vals : list value) (l : list doc) : list doc :=
  List.filter (fun d => existsb (value_eqb (VOid (_id d))) vals) l.

(** Order of BSON values of different types, and within the scalar types.
    Arrays and embedded documents are not compared further. *)
Definition bson_rank (v : option value) : Z :=
  match v with
  | None | Some VNone => 1
  | Some (VInt _) => 2
  | Some (VStr _) => 3
  | Some (VDict _) => 4
  | Some (VList _) => 5
  | Some (VOid _) => 7
  | Some (VTime _) => 9
  end.

Definition bson_leb (a b : option value) : bool :=
  match a, b with
  | Some (VInt x), Some (VInt y) => x <=? y
  | Some (VTime x), Some (VTime y) => x <=? y
  | Some (VOid x), Some (VOid y) => (x <=? y)%N
  | Some (VStr x), Some (VStr y) => String.leb x y
  | _, _ => bson_rank a <=? bson_rank b
  end.

(** [cursor.sort(key, -1)]: descending, ties keep the stored order. *)
Definition before (key : string) (a b : doc) : Prop :=
  bson_leb (get b key) (get a key) = true.

#[global] Instance before_dec key a b : Decision (before key a b).
Proof. unfold before. apply _. Defined.

Definition sort_desc (key : string) (l : list doc) : list doc :=
  merge_sort (before key) l.

(** [cursor.limit(n)]: [0] means no limit, a negative [n] limits like its
    absolute value. *)
Definition limit {A} (n : Z) (l : list A) : list A :=
  if n =? 0 then l else take (Z.to_nat (Z.abs n)) l.

(** A fetched document as the dictionary it is: the [ObjectId] under
    [_id], then the fields. *)
Definition as_dict (d : doc) : value :=
  VDict (("_id", VOid (_id d)) :: map_to_list (fields d)).

(** The [ValueError] of the encoder: it carries the two errors of its last
    attempts, [dict(obj)] and [vars(obj)]. *)
Definition not_encodable : exc :=
  PyError "ValueError"
    ("[TypeError(" +:+ String "034"%char "'ObjectId' object is not iterable"
     +:+ String "034"%char "), TypeError('vars() argument must have __dict__ attribute')]").

(** [jsonable_encoder(obj)] *)
Definition jsonable_encoder (obj : value) : result value :=
  match encode obj with
  | Some v => Ok v
  | None => Raise not_encodable
  end.

End Store.

(** ** The application ([src/main.py]) *)

Module Main.
Import Py Eff Schemas Store.

(** What a handler can read and change: the shared handle [db] ([None]
    when the adapter found no configuration), the generator behind
    [random], and the clock behind [datetime.now]. The last two are the
    sequences of values still to be handed out. *)
Record world := World {
  db : option database;
  rnd : nat -> N;
  clk : nat -> Z
}.

(** A computation runs in a world and either returns or raises; the world
    it leaves behind is kept in both cases. *)
Definition M (A : Type) : Type := world -> result A * world.

#[global] Instance M_ret : MRet M := fun A a w => (Ok a, w).

#[global] Instance M_bind : MBind M := fun A B f m w =>
  match m w with
  | (Ok a, w') => f a w'
  | (Raise e, w') => (Raise e, w')
  end.

Definition raise {A} (e : exc) : M A := fun w => (Raise e, w).

Definition lift {A} (r : result A) : M A := fun w => (r, w).

(** [try: body / except Exception as e: handler(e)].  [HTTPException]
    derives from [Exception], so it is caught as well. *)
Definition try_except {A} (body : M A) (handler : exc -> M A) : M A := fun w =>
  match body w with
  | (Raise e, w') => handler e w'
  | r => r
  end.

(** *** The environment *)

Definition random : M N := fun w =>
  (Ok (rnd w 0%nat), World (db w) (fun i => rnd w (S i)) (clk w)).

(** [_now()] *)
Definition _now : M Z := fun w =>
  (Ok (clk w 0%nat), World (db w) (rnd w) (fun i => clk w (S i))).

(** [random.randint(a, b)] *)
Definition randint (a b : Z) : M Z :=
  if b <? a then raise (PyError "ValueError" "empty range for randrange()")
  else r ← random; mret (a + Z.of_N r mod (b - a + 1)).

(** [random.choice(seq)] *)
Definition choice {A} (seq : list A) : M A :=
  r ← random;
  match seq !! (N.to_nat r mod length seq)%nat with
  | Some x => mret x
  | None => raise (PyError "IndexError" "Cannot choose from an empty sequence")
  end.

Fixpoint draw {A} (k : nat) (pool : list A) : M (list A) :=
  match k with
  | O => mret []
  | S k' =>
      r ← random;
      let i := (N.to_nat r mod length pool)%nat in
      match pool !! i with
      | Some x => rest ← draw k' (delete i pool); mret (x :: rest)
      | None => raise (PyError "IndexError" "pop from empty list")
      end
  end.

(** [random.sample(population, k)]: [k] distinct positions. *)
Definition sample {A} (population : list A) (k : Z) : M (list A) :=
  if (k <? 0) || (Z.of_nat (length population) <? k)
  then raise (PyError "ValueError" "Sample larger than population or is negative")
  else draw (Z.to_nat k) population.

(** *** Access to the store *)

(** [db[name]] needs a handle: subscripting [None] is a [TypeError]. *)
Definition handle : M database := fun w =>
  match db w with
  | None => (TypeError_None, w)
  | Some d => (Ok d, w)
  end.

Definition put_db (d : database) : M unit := fun w =>
  (Ok tt, World (Some d) (rnd w) (clk w)).

(** A read of [db[name]]: [list(db[name].find({}))] after the cursor
    modifiers, or [find_one], according to [shape]. *)
Definition find {A} (name : string) (shape : list doc -> A) : M A :=
  d ← handle; lift (available d (shape (coll d name))).

(** [db[name].count_documents({})] *)
Definition count_documents (name : string) : M Z :=
  find name (fun l => Z.of_nat (length l)).

(** [db[name].update_one({"_id": oid}, ops)] *)
Definition update_one (name : string) (oid : N) (ops : list update_op) : M UpdateResult :=
  d ← handle;
  _ ← lift (available d tt);
  '(l, res) ← lift (update_first oid ops (coll d name));
  _ ← (if decide (matched_count res = 0) then mret tt else put_db (set_coll d name l));
  mret res.

(** Modelled from the spec: [create_document] of the persistence adapter
    ([database.py], not part of the sources at hand).  It serializes the
    validated record to a plain mapping, stamps [created_at] and
    [updated_at] with the current UTC time, inserts the mapping into the
    named collection and returns the generated identifier. *)
Definition create_document (name : string) (data : list (string * value)) : M string :=
  d ← handle;
  created ← _now;
  updated ← _now;
  let data_dict : gmap string value :=
    <["updated_at" := VTime updated]> (<["created_at" := VTime created]> (list_to_map data)) in
  _ ← lift (available d tt);
  let '(d', oid) := insert_one d name data_dict in
  _ ← put_db d';
  mret (oid_str oid).

(** *** Loops *)

(** [for _ in range(n): s = body(s)] *)
Fixpoint for_range {S} (n : nat) (body : S -> M S) (s : S) : M S :=
  match n with
  | O => mret s
  | Datatypes.S n' => s' ← body s; for_range n' body s'
  end.

(** [for x in xs: s = body(x, s)] *)
Fixpoint for_each {A S} (xs : list A) (body : A -> S -> M S) (s : S) : M S :=
  match xs with
  | [] => mret s
  | x :: xs' => s' ← body x s; for_each xs' body s'
  end.

(** *** The bootstrap seeder *)

Record BootstrapResponse := { characters : Z; posts : Z; stories : Z }.

Definition first_names : list string :=
  ["Ava";"Liam";"Noah";"Mia";"Zoe";"Kai";"Leo";"Ivy";"Nora";"Mila";"Aria";"Ezra";"Finn";"Luna";
   "Nova";"Zara";"Enzo";"Atlas";"Jade";"Ada"].

Definition last_names : list string :=
  ["Wilde";"Rivera";"Okafor";"Nguyen";"Kim";"Singh";"Khan";"Garcia";"Silva";"Ivanov";"Sato";
   "Hernandez";"Smith";"Brown"].

Definition interests_pool : list string :=
  ["travel";"food";"art";"fitness";"tech";"gaming";"fashion";"music";"photo";"nature";"design";
   "books";"coffee";"pets";"memes"].

(** [c['username']]: a missing key is a [KeyError]. *)
Definition getitem (c : doc) (k : string) : M value :=
  match get c k with
  | Some v => mret v
  | None => raise (PyError "KeyError" ("'" +:+ k +:+ "'"))
  end.

(** The text of a value inside an f-string. *)
Definition format (v : value) : M string := mret (py_str v).

(** The body of the first loop: one synthetic character. *)
Definition seed_character (created_chars : Z) : M Z :=
  first ← choice first_names;
  last ← choice last_names;
  let name := first +:+ " " +:+ last in
  word ← match split_first name with
         | Some w => mret w
         | None => raise (PyError "IndexError" "list index out of range")
         end;
  suffix ← randint 100 999;
  let username := lower (word +:+ pretty suffix) in
  adjective ← choice ["virtual"; "creative"; "digital"; "urban"; "cozy"];
  img ← randint 1 70;
  k ← randint 2 4;
  interests ← sample interests_pool k;
  followers ← randint 100 9000;
  following ← randint 50 900;
  char ← lift (construct Character
    [ ("username", VStr username);
      ("name", VStr name);
      ("bio", VStr (join " " ["Exploring"; adjective; "worlds 🌐"]));
      ("avatar_url", VStr ("https://i.pravatar.cc/150?img=" +:+ pretty img));
      ("interests", VList (VStr <$> interests));
      ("followers", VInt followers);
      ("following", VInt following) ]);
  _ ← create_document "character" char;
  mret (created_chars + 1).

(** The body of the inner loop: one post of character [c]. *)
Definition seed_post (c : doc) (created_posts : Z) : M Z :=
  uname ← getitem c "username";
  uname ← format uname;
  n ← randint 1 9999;
  let media_url := "https://picsum.photos/seed/" +:+ uname +:+ "-" +:+ pretty n +:+ "/800/1000" in
  phrase ← choice ["Sunset vibes"; "Daily snap"; "Weekend mood"; "New drop"; "Behind the scenes"];
  tag ← choice interests_pool;
  h1 ← choice interests_pool;
  h2 ← choice interests_pool;
  likes ← randint 10 5000;
  comments ← randint 0 200;
  post ← lift (construct Post
    [ ("author_type", VStr "character");
      ("author_id", VStr (oid_str (_id c)));
      ("type", VStr "image");
      ("media_url", VStr media_url);
      ("caption", VStr (phrase +:+ " #" +:+ tag));
      ("hashtags", VList [VStr h1; VStr h2]);
      ("like_count", VInt likes);
      ("comment_count", VInt comments) ]);
  _ ← create_document "post" post;
  mret (created_posts + 1).

(** The occasional story of character [c]. *)
Definition seed_story (c : doc) (created_stories : Z) : M Z :=
  coin ← randint 0 1;
  if coin =? 1 then
    uname ← getitem c "username";
    uname ← format uname;
    overlay ← choice [VStr "Out and about"; VStr "Work in progress"; VStr "New playlist";
                      VStr "Coffee time"; VNone];
    now ← _now;
    story ← lift (construct Story
      [ ("author_type", VStr "character");
        ("author_id", VStr (oid_str (_id c)));
        ("media_url", VStr ("https://picsum.photos/seed/story-" +:+ uname +:+ "/720/1280"));
        ("text_overlay", overlay);
        ("expires_at", VStr (isoformat (now + timedelta_hours 24))) ]);
    _ ← create_document "story" story;
    mret (created_stories + 1)
  else mret created_stories.

(** The body of the second loop; the state is
    [(created_posts, created_stories)]. *)
Definition seed_content (posts_per_character : Z) (c : doc) (created : Z * Z) : M (Z * Z) :=
  created_posts ← for_range (Z.to_nat posts_per_character) (seed_post c) created.1;
  created_stories ← seed_story c created.2;
  mret (created_posts, created_stories).

Definition ensure_bootstrap (character_count posts_per_character : Z) : M BootstrapResponse :=
  fun w =>
  match db w with
  | None => raise (HTTPException 500 "Database not configured") w
  | Some _ =>
     (existing ← count_documents "character";
      if 5 <=? existing then
        p ← count_documents "post";
        s ← count_documents "story";
        mret {| characters := existing; posts := p; stories := s |}
      else
        created_chars ← for_range (Z.to_nat character_count) seed_character 0;
        chars ← find "character" (limit character_count);
        created ← for_each chars (seed_content posts_per_character) (0, 0);
        mret {| characters := created_chars; posts := created.1; stories := created.2 |}) w
  end.

(** [GET /api/bootstrap] *)
Definition api_bootstrap : M BootstrapResponse := ensure_bootstrap 24 2.

(** *** Hydration *)

(** [{str(c.get("_id")): c for c in chars}]: a later document replaces an
    earlier one under the same key. *)
Definition char_map_of (chars : list doc) : gmap string doc :=
  foldl (fun m c => <[oid_str (_id c) := c]> m) ∅ chars.

(** [char_map.get(key)], where [key] is what [p.get("author_id")] gave:
    only a text can be a key of the map, and a list or a dictionary
    cannot be looked up at all. *)
Definition dict_get (m : gmap string doc) (key : option value) : M (option doc) :=
  match key with
  | Some (VStr s) => mret (m !! s)
  | Some (VList _) => raise (PyError "TypeError" "unhashable type: 'list'")
  | Some (VDict _) => raise (PyError "TypeError" "unhashable type: 'dict'")
  | _ => mret None
  end.

(** The summary attached under ["author"]; [c.get(k)] of a missing key is
    [None]. *)
Definition author_of (c : doc) : value :=
  VDict [ ("username", default VNone (get c "username"));
          ("name", default VNone (get c "name"));
          ("avatar_url", default VNone (get c "avatar_url")) ].

(** The body of the hydration loop.  A fetched character is never an
    empty dictionary (it has its [_id]), so [if c:] only tests that the
    lookup found something. *)
Definition hydrate (char_map : gmap string doc) (p : doc) : M doc :=
  c ← dict_get char_map (get p "author_id");
  match c with
  | Some c => mret (setitem p "author" (author_of c))
  | None => mret p
  end.

Fixpoint map_M {A B} (f : A -> M B) (xs : list A) : M (list B) :=
  match xs with
  | [] => mret []
  | x :: xs' => y ← f x; ys ← map_M f xs'; mret (y :: ys)
  end.

(** *** Read endpoints *)

(** [GET /api/feed] *)
Definition get_feed (limit_ : Z) : M value :=
  try_except
    (posts ← find "post" (fun l => limit limit_ (sort_desc "created_at" l));
     let author_ids := (fun p => get p "author_id") <$> posts in
     characters ← find "character" (find_id_in [VNone]);
     chars ← find "character" id;
     let char_map := char_map_of chars in
     posts ← map_M (hydrate char_map) posts;
     lift (jsonable_encoder (VList (as_dict <$> posts))))
    (fun e => raise (HTTPException 500 (exc_str e))).

(** [GET /api/stories] *)
Definition get_stories (limit_ : Z) : M value :=
  stories ← find "story" (fun l => limit limit_ (sort_desc "created_at" l));
  chars ← find "character" id;
  let char_map := char_map_of chars in
  stories ← map_M (hydrate char_map) stories;
  lift (jsonable_encoder (VList (as_dict <$> stories))).

(** [GET /api/characters] *)
Definition get_characters (limit_ : Z) : M value :=
  chars ← find "character" (limit limit_);
  lift (jsonable_encoder (VList (as_dict <$> chars))).

(** *** The like endpoint *)

Definition InvalidId (text : string) : exc :=
  PyError "InvalidId"
    (repr_str text +:+ " is not a valid ObjectId, it must be a 12-byte input or a 24-character hex string").

(** [POST /api/like/{post_id}].  [find_one] of a missing document gives
    [None], which the encoder passes through. *)
Definition like_post (post_id : string) : M value :=
  try_except
    (_ ← handle;
     oid ← match ObjectId post_id with
           | Some o => mret o
           | None => raise (InvalidId post_id)
           end;
     now ← _now;
     res ← update_one "post" oid [Inc "like_count" 1; Set_ "updated_at" (VTime now)];
     if modified_count res =? 0 then raise (HTTPException 404 "Post not found")
     else
       post ← find "post" (find_one oid);
       lift (jsonable_encoder (from_option as_dict VNone post)))
    (fun e => raise (HTTPException 400 (exc_str e))).

(** *** What the client sees

    FastAPI turns a returned value into a 200 response, an
    [HTTPException] into a response with its status and detail, and any
    other exception that leaves the handler into the bare 500 response
    ["Internal Server Error"]. *)
Inductive reply (A : Type) :=
  | Success (content : A)
  | Failure (status : Z) (detail : string).
Arguments Success {A} content.
Arguments Failure {A} status detail.

Definition respond {A} (r : result A) : reply A :=
  match r with
  | Ok a => Success a
  | Raise (HTTPException sc d) => Failure sc d
  | Raise (PyError _ _) => Failure 500 "Internal Server Error"
  end.

Definition serve {A} (h : M A) (w : world) : reply A * world :=
  let '(r, w') := h w in (respond r, w').

End Main.

(** ** Specification vocabulary *)

Module Spec.
Import Py Eff Schemas Store Main.

(** [m] run in [w] returns, and the value and the world it leaves satisfy [Q]. *)
Definition wp {A} (m : M A) (Q : A -> world -> Prop) (w : world) : Prop :=
  match m w with
  | (Ok a, w') => Q a w'
  | (Raise _, _) => False
  end.

(** A post or story as the seeder writes it for one of the characters [cs]. *)
Definition authored_by (cs : list doc) (p : doc) : Prop :=
  fields p !! "author_type" = Some (VStr "character")
  /\ exists c, c ∈ cs /\ fields p !! "author_id" = Some (VStr (oid_str (_id c))).

Definition image_post (p : doc) : Prop :=
  fields p !! "type" = Some (VStr "image").

Definition has_username (c : doc) : Prop :=
  exists u, fields c !! "username" = Some (VStr u).

(** No collection holds a document. *)
Definition empty_store (d : database) : Prop := forall name, coll d name = [].

(** The store while the seeder writes content for the characters [cs]:
    [np] posts and [ns] stories, all of them by one of [cs]. *)
Definition seeded (cs : list doc) (np ns : nat) (d : database) : Prop :=
  outage d = None
  /\ coll d "character" = cs
  /\ length (coll d "post") = np
  /\ length (coll d "story") = ns
  /\ Forall (authored_by cs) (coll d "post")
  /\ Forall image_post (coll d "post")
  /\ Forall (authored_by cs) (coll d "story").

(** The stored document is a record of model [m]: every declared field is
    there with a value the model accepts, and beside the fields there are
    only the two stamps. *)
Definition is_record (m : model) (d : doc) : bool :=
  forallb (fun f => match fields d !! fname f with
                    | Some v => has_type (ftyp f) v && constraint_ok (ftyp f) v
                    | None => false
                    end) m
  && bool_decide (dom (fields d) ⊆ list_to_set ("created_at" :: "updated_at" :: (fname <$> m))).

(** What the hydration loop leaves of one fetched item. *)
Definition hydrated (char_map : gmap string doc) (p : doc) : doc :=
  match get p "author_id" with
  | Some (VStr s) =>
      match char_map !! s with
      | Some c => setitem p "author" (author_of c)
      | None => p
      end
  | _ => p
  end.

(** The two listings that hydrate their items. *)
Inductive listing := Feed | Stories.

Definition listing_handler (k : listing) : Z -> M value :=
  match k with Feed => get_feed | Stories => get_stories end.

Definition listing_coll (k : listing) : string :=
  match k with Feed => "post" | Stories => "story" end.

(** [p.get("author_id")] can be looked up in a dictionary. *)
Definition hashable_author (p : doc) : Prop :=
  match get p "author_id" with
  | Some (VList _) | Some (VDict _) => False
  | _ => True
  end.

(** What a listing fetches, before it hydrates. *)
Definition fetched (k : listing) (limit_ : Z) (d : database) : list doc :=
  limit limit_ (sort_desc "created_at" (coll d (listing_coll k))).

(** One entry of the ["author"] object of a hydrated item. *)
Definition author_field (p : doc) (key : string) : option value :=
  match fields p !! "author" with
  | Some (VDict a) => assoc key a
  | _ => None
  end.

(** What a listing raises when the encoder fails, and what the client
    gets then: the feed wraps the error, the stories let it through. *)
Definition listing_failure (k : listing) : exc :=
  match k with
  | Feed => HTTPException 500 (exc_str not_encodable)
  | Stories => not_encodable
  end.

(** The post [p] after one like at time [now], its counter being [n]: the
    store keeps the time in milliseconds. *)
Definition liked (p : doc) (n now : Z) : doc :=
  Doc (_id p)
    (<["updated_at" := VTime (now / 1000 * 1000)]> (<["like_count" := VInt (n + 1)]> (fields p))).

(** The world after one reading of the clock, with the store [d]. *)
Definition after_tick (w : world) (d : option database) : world :=
  World d (rnd w) (fun i => clk w (S i)).

(** What [construct] needs of one field: an argument the field accepts,
    or no argument and a default. *)
Definition supplied_ok (f : field) (kwargs : list (string * value)) : Prop :=
  match assoc (fname f) kwargs with
  | None => fdefault f <> None
  | Some v => has_type (ftyp f) v = true /\ constraint_ok (ftyp f) v = true
  end.

(** The integer fields that declare a minimum, by class. *)
Definition bounded_fields : list (string * string) :=
  [ ("Character", "followers"); ("Character", "following");
    ("Post", "like_count"); ("Post", "comment_count") ].

End Spec.

(** ** Sample worlds *)

Module Samples.
Import Py Eff Schemas Store Main.

Definition dice (i : nat) : N := N.of_nat (7 * i + 3 + i / 5).
Definition ticks (i : nat) : Z := 1700000000000000 + Z.of_nat i.

Definition blank : database := Database ∅ 0 None.

(** A configured, empty store. *)
Definition fresh : world := World (Some blank) dice ticks.

(** No configuration: the handle is [None]. *)
Definition unset : world := World None dice ticks.

(** A configured store that cannot be reached. *)
Definition down : world :=
  World (Some (Database ∅ 0 (Some "connection refused"))) dice ticks.

(** The world left by seeding five characters with one post each. *)
Definition crowded : world := (ensure_bootstrap 5 1 fresh).2.

Definition store_of (w : world) : database := default blank (db w).

(** A well-formed identifier that no document of [crowded] has. *)
Definition stranger : string := "507f1f77bcf86cd799439011".

(** The world left by seeding two characters with one post each. *)
Definition lively : world := (ensure_bootstrap 2 1 fresh).2.

(** Its first post and the path parameter that names it. *)
Definition first_post : doc := default (Doc 0 ∅) (head (coll (store_of lively) "post")).
Definition first_post_id : string := oid_str (_id first_post).

End Samples.

(** ** The diagnostic endpoint ([GET /test] of [src/main.py]) *)

Module Diagnostics.
Import Py Eff Schemas Store Main.

(** [db.list_collection_names()]: the names of the collections of the
    store.  The order in which a server lists them is its own; here they
    come in the order of the map. *)
Definition list_collection_names : M (list string) :=
  d ← handle; lift (available d ((map_to_list (colls d)).*1)).

(** [os.getenv(name)] used as a condition: an unset variable and an empty
    one are both false. *)
Definition env_set (v : option string) : bool :=
  match v with
  | Some s => negb (String.eqb s "")
  | None => false
  end.

(** [text[:50]] *)
Definition first50 (text : string) : string := take_chars 50 text.

Definition set_or_not (v : option string) : value :=
  VStr (if env_set v then "✅ Set" else "❌ Not Set").

(** The dictionary [response] as first bound. *)
Definition initial_response : gmap string value :=
  list_to_map
    [ ("backend", VStr "✅ Running");
      ("database", VStr "❌ Not Available");
      ("database_url", VNone);
      ("database_name", VNone);
      ("connection_status", VStr "Not Connected");
      ("collections", VList []) ].

(** [GET /test].  [getenv] is the process environment and [db_name] the
    [name] attribute of the handle (a pymongo database always has one).
    A handler sees [response] as it was changed before the guarded call. *)
Definition test_database (getenv : string -> option string) (db_name : string)
  : M (gmap string value) := fun w =>
  (response ←
     match db w with
     | Some _ =>
         let response :=
           <["connection_status" := VStr "Connected"]>
             (<["database_name" := VStr db_name]>
                (<["database_url" := VStr "✅ Set"]>
                   (<["database" := VStr "✅ Available"]> initial_response))) in
         try_except
           (try_except
              (collections ← list_collection_names;
               mret (<["database" := VStr "✅ Connected & Working"]>
                       (<["collections" := VList (VStr <$> take 10 collections)]> response)))
              (fun e =>
                 mret (<["database" := VStr ("⚠️  Connected but Error: " +:+ first50 (exc_str e))]> response)))
           (fun e => mret (<["database" := VStr ("❌ Error: " +:+ first50 (exc_str e))]> response))
     | None => mret (<["database" := VStr "⚠️  Available but not initialized"]> initial_response)
     end;
   mret (<["database_name" := set_or_not (getenv "DATABASE_NAME")]>
           (<["database_url" := set_or_not (getenv "DATABASE_URL")]> response))) w.
End Diagnostics.

Module DiagnosticsSpec.
Import Py Eff Schemas Store Main Diagnostics.

(** The whole report, by the state of the handle and of the store. *)
Definition report (getenv : string -> option string) (status connection : string)
    (names : list string) : gmap string value :=
  list_to_map
    [ ("backend", VStr "✅ Running");
      ("database", VStr status);
      ("database_url", set_or_not (getenv "DATABASE_URL"));
      ("database_name", set_or_not (getenv "DATABASE_NAME"));
      ("connection_status", VStr connection);
      ("collections", VList (VStr <$> names)) ].
End DiagnosticsSpec.

(** ** Vocabulary for the endpoints *)

Module EndpointSpec.
Import Py Eff Schemas Store Main Spec.


(** The update the like endpoint sends. *)
Definition like_ops (now : Z) : list update_op :=
  [Inc "like_count" 1; Set_ "updated_at" (VTime now)].

(** What one like may do to one stored post: nothing, or count and stamp. *)
Definition like_step (q q' : doc) : Prop :=
  q' = q
  \/ (exists n now, fields q !! "like_count" = Some (VInt n) /\ q' = liked q n now)
  \/ (exists now, fields q !! "like_count" = None
        /\ q' = Doc (_id q) (<["updated_at" := VTime now]> (<["like_count" := VInt 1]> (fields q)))).

(** The text has ASCII characters only. *)
Definition ascii_text (s : string) : bool :=
  forallb (fun c => (nat_of_ascii c <? 128)%nat) (list_ascii_of_string s).

(** The three read endpoints. *)
Inductive reader := ReadFeed | ReadStories | ReadCharacters.

Definition reader_handler (r : reader) : Z -> M value :=
  match r with
  | ReadFeed => get_feed
  | ReadStories => get_stories
  | ReadCharacters => get_characters
  end.

Definition reader_coll (r : reader) : string :=
  match r with
  | ReadFeed => "post"
  | ReadStories => "story"
  | ReadCharacters => "character"
  end.
End EndpointSpec.

Module RecordSpec.
Import Py Eff Schemas Store Main Spec.

(** The attribute a constructed record holds for field [f]: the argument
    when one was supplied, the default otherwise. *)
Definition filled (kwargs : list (string * value)) (f : field) : string * value :=
  (fname f, default (default VNone (fdefault f)) (assoc (fname f) kwargs)).


(** The declaration is coherent: no name is declared twice or clashes
    with a stamp, and every default is a value its own field accepts. *)
Definition model_ok (m : model) : bool :=
  bool_decide (NoDup ("created_at" :: "updated_at" :: (fname <$> m)))
  && forallb (fun f => match fdefault f with
                       | Some v => has_type (ftyp f) v && constraint_ok (ftyp f) v
                       | None => true
                       end) m.

(** The mapping the store keeps of a record that [create_document]
    stamped at [t1] and [t2]. *)
Definition stamped (data : list (string * value)) (t1 t2 : Z) : gmap string value :=
  to_bson <$> <["updated_at" := VTime t2]> (<["created_at" := VTime t1]> (list_to_map data)).
End RecordSpec.

Module SeederSpec.
Import Py Eff Schemas Store Main Spec EndpointSpec RecordSpec.

(** Field [k] of [p] holds an integer between [lo] and [hi]. *)
Definition int_field (p : doc) (k : string) (lo hi : Z) : Prop :=
  exists z, fields p !! k = Some (VInt z) /\ lo <= z <= hi.

(** A character as the first loop of the seeder writes it. *)
Definition seeder_character (c : doc) : Prop :=
  is_record Character c = true
  /\ int_field c "followers" 100 9000
  /\ int_field c "following" 50 900
  /\ (exists tags, fields c !! "interests" = Some (VList (VStr <$> tags))
        /\ (2 <= length tags <= 4)%nat /\ NoDup tags /\ tags ⊆ interests_pool)
  /\ (exists first last suffix,
        first ∈ first_names /\ last ∈ last_names /\ 100 <= suffix <= 999
        /\ fields c !! "name" = Some (VStr (first +:+ " " +:+ last))
        /\ fields c !! "username" = Some (VStr (lower (first +:+ pretty suffix)))).

(** A post as the second loop writes it for one of the characters [cs]. *)
Definition seeder_post (cs : list doc) (p : doc) : Prop :=
  is_record Post p = true
  /\ authored_by cs p
  /\ image_post p
  /\ int_field p "like_count" 10 5000
  /\ int_field p "comment_count" 0 200
  /\ (exists h1 h2, fields p !! "hashtags" = Some (VList [VStr h1; VStr h2])
        /\ h1 ∈ interests_pool /\ h2 ∈ interests_pool).

(** A story as the second loop writes it: it expires 24 hours after a
    reading [t] of the clock. *)
Definition seeder_story (cs : list doc) (s : doc) : Prop :=
  is_record Story s = true
  /\ authored_by cs s
  /\ exists t, fields s !! "expires_at" = Some (VStr (isoformat (t + timedelta_hours 24))).

(** The store [d'] is the store [d] with the characters [nc], the posts
    [np] and the stories [ns] appended, and nothing else touched. *)
Definition grown (d d' : database) (nc np ns : list doc) : Prop :=
  outage d' = None
  /\ coll d' "character" = (coll d "character" ++ nc)%list
  /\ coll d' "post" = (coll d "post" ++ np)%list
  /\ coll d' "story" = (coll d "story" ++ ns)%list
  /\ forall name, name <> "character" -> name <> "post" -> name <> "story" ->
       coll d' name = coll d name.
End SeederSpec.

Module MoreSamples.
Import Py Eff Schemas Store Main Spec Samples EndpointSpec RecordSpec SeederSpec.

(** A store whose only character has no username. *)
Definition nameless : world :=
  World (Some (Database {["character" := [Doc 0 ∅]]} 1 None)) dice ticks.
End MoreSamples.

(** ** Facts about identifiers and dictionaries *)

Module PyFacts.
Import Py Eff Schemas Store Main Spec.

Lemma lower_hex_digits (d : Hexadecimal.uint) :
  lower (NilEmpty.string_of_uint d) = NilEmpty.string_of_uint d.
Proof. induction d; simpl; try rewrite IHd; reflexivity. Qed.

Lemma lower_app (s t : string) : lower (s +:+ t) = lower s +:+ lower t.
Proof. induction s as [|c s IH]; simpl; [done|]. by rewrite IH. Qed.

Lemma lower_zeros (n : nat) : lower (zeros n) = zeros n.
Proof. induction n as [|n IH]; simpl; [done|]. unfold zeros in IH. by rewrite IH. Qed.

Lemma to_hex_uint_not_Nil (o : N) : N.to_hex_uint o <> Hexadecimal.Nil.
Proof.
  intros H. pose proof (HexadecimalN.Unsigned.of_to o) as Hot.
  rewrite H in Hot. simpl in Hot. subst o. discriminate H.
Qed.

Lemma uint_of_zeros (n : nat) (s : string) (d : Hexadecimal.uint) :
  NilEmpty.uint_of_string s = Some d ->
  exists d', NilEmpty.uint_of_string (zeros n +:+ s) = Some d'
             /\ N.of_hex_uint d' = N.of_hex_uint d.
Proof.
  intros Hs. induction n as [|n [d' [Hd' Hv]]].
  - exists d. done.
  - exists (Hexadecimal.D0 d'). split; [|done].
    change (zeros (S n) +:+ s) with (String "0" (zeros n +:+ s)).
    simpl. by rewrite Hd'.
Qed.

(** The text of an identifier reads back as the identifier. *)
Lemma unhex_oid_str (o : N) : unhex (oid_str o) = Some o.
Proof.
  unfold unhex, oid_str.
  assert (NilZero.string_of_uint (N.to_hex_uint o)
          = NilEmpty.string_of_uint (N.to_hex_uint o)) as ->.
  { pose proof (to_hex_uint_not_Nil o). by destruct (N.to_hex_uint o). }
  rewrite lower_app, lower_zeros, lower_hex_digits.
  destruct (uint_of_zeros (24 - String.length (NilEmpty.string_of_uint (N.to_hex_uint o)))
              _ _ (NilEmpty.usu (N.to_hex_uint o))) as [d' [-> Hv]].
  simpl. by rewrite Hv, HexadecimalN.Unsigned.of_to.
Qed.

Lemma oid_str_inj (a b : N) : oid_str a = oid_str b -> a = b.
Proof.
  intros H. pose proof (unhex_oid_str a) as Ha.
  rewrite H, unhex_oid_str in Ha. by injection Ha.
Qed.

(** A dictionary built from a literal answers like the literal. *)
Lemma list_to_map_assoc {A} (l : list (string * A)) (k : string) :
  (list_to_map l : gmap string A) !! k = assoc k l.
Proof.
  induction l as [|[k' v] l IH]; simpl; [done|].
  destruct (String.eqb_spec k k') as [->|Hne].
  - by rewrite lookup_insert_eq.
  - by rewrite lookup_insert_ne.
Qed.

End PyFacts.

(** ** Reasoning about computations *)

Module MFacts.
Import Py Eff Schemas Store Main Spec PyFacts.

Lemma wp_returns {A} (m : M A) Q w :
  wp m Q w <-> exists a w', m w = (Ok a, w') /\ Q a w'.
Proof.
  unfold wp. destruct (m w) as [[a|e] w']; split.
  - eauto.
  - by intros (? & ? & [= -> ->] & ?).
  - done.
  - by intros (? & ? & [=] & ?).
Qed.

Lemma wp_ret {A} (a : A) (Q : A -> world -> Prop) w : Q a w -> wp (mret a) Q w.
Proof. done. Qed.

Lemma wp_bind {A B} (m : M A) (f : A -> M B) Q w :
  wp m (fun a w' => wp (f a) Q w') w -> wp (m ≫= f) Q w.
Proof. unfold wp, mbind, M_bind. by destruct (m w) as [[a|e] w']. Qed.

Lemma wp_mono {A} (m : M A) (Q Q' : A -> world -> Prop) w :
  (forall a w', Q a w' -> Q' a w') -> wp m Q w -> wp m Q' w.
Proof. unfold wp. destruct (m w) as [[a|e] w']; auto. Qed.

Lemma wp_lift {A} (r : result A) a (Q : A -> world -> Prop) w :
  r = Ok a -> Q a w -> wp (lift r) Q w.
Proof. by intros ->. Qed.

Lemma wp_random (Q : N -> world -> Prop) w :
  (forall r w', db w' = db w -> Q r w') -> wp random Q w.
Proof. intros H. apply H. done. Qed.

Lemma wp_now (Q : Z -> world -> Prop) w :
  (forall t w', db w' = db w -> Q t w') -> wp _now Q w.
Proof. intros H. apply H. done. Qed.

Lemma wp_randint a b (Q : Z -> world -> Prop) w :
  a <= b ->
  (forall z w', a <= z <= b -> db w' = db w -> Q z w') -> wp (randint a b) Q w.
Proof.
  intros Hab H. unfold randint.
  destruct (Z.ltb_spec b a); [lia|].
  apply wp_bind, wp_random. intros r w' Hdb. apply wp_ret, H; [|done].
  pose proof (Z.mod_pos_bound (Z.of_N r) (b - a + 1)). lia.
Qed.

Lemma wp_choice {A} (seq : list A) (Q : A -> world -> Prop) w :
  seq <> [] ->
  (forall x w', x ∈ seq -> db w' = db w -> Q x w') -> wp (choice seq) Q w.
Proof.
  intros Hne H. unfold choice. apply wp_bind, wp_random. intros r w' Hdb.
  destruct (seq !! _) as [x|] eqn:Hx.
  - apply wp_ret, H; [|done]. by eapply list_elem_of_lookup_2.
  - apply lookup_ge_None in Hx. destruct seq; [done|].
    pose proof (Nat.mod_upper_bound (N.to_nat r) (length (a :: seq))). simpl in *. lia.
Qed.

Lemma wp_draw {A} (k : nat) (pool : list A) (Q : list A -> world -> Prop) w :
  (k <= length pool)%nat ->
  (forall xs w', db w' = db w -> Q xs w') -> wp (draw k pool) Q w.
Proof.
  revert pool Q w. induction k as [|k IH]; intros pool Q w Hk H; simpl.
  - by apply wp_ret, H.
  - apply wp_bind, wp_random. intros r w' Hdb.
    destruct (pool !! _) as [x|] eqn:Hx.
    + apply wp_bind, IH.
      * rewrite length_delete; [lia|]. by eexists.
      * intros xs w'' Hdb'. apply wp_ret, H. congruence.
    + apply lookup_ge_None in Hx. destruct pool; [simpl in *; lia|].
      pose proof (Nat.mod_upper_bound (N.to_nat r) (length (a :: pool))). simpl in *. lia.
Qed.

Lemma wp_sample {A} (population : list A) (k : Z) (Q : list A -> world -> Prop) w :
  0 <= k <= Z.of_nat (length population) ->
  (forall xs w', db w' = db w -> Q xs w') -> wp (sample population k) Q w.
Proof.
  intros Hk H. unfold sample.
  destruct (Z.ltb_spec k 0); [lia|].
  destruct (Z.ltb_spec (Z.of_nat (length population)) k); [lia|].
  simpl. apply wp_draw; [lia|done].
Qed.

Lemma wp_handle d (Q : database -> world -> Prop) w :
  db w = Some d -> Q d w -> wp handle Q w.
Proof. intros Hd H. unfold wp, handle. by rewrite Hd. Qed.

Lemma wp_find {A} name (shape : list doc -> A) d (Q : A -> world -> Prop) w :
  db w = Some d -> outage d = None ->
  Q (shape (coll d name)) w -> wp (find name shape) Q w.
Proof.
  intros Hd Ho H. unfold find. eapply wp_bind, wp_handle; [done|].
  eapply wp_lift; [|done]. unfold available. by rewrite Ho.
Qed.

Lemma wp_count_documents name d (Q : Z -> world -> Prop) w :
  db w = Some d -> outage d = None ->
  Q (Z.of_nat (length (coll d name))) w -> wp (count_documents name) Q w.
Proof. intros Hd Ho H. unfold count_documents. by apply (wp_find _ _ d). Qed.

(** What [create_document] writes: the record plus the two stamps. *)
Lemma wp_create_document name data d (Q : string -> world -> Prop) w :
  db w = Some d -> outage d = None ->
  (forall t1 t2 w',
     db w' = Some (insert_one d name
                     (<["updated_at" := VTime t2]> (<["created_at" := VTime t1]> (list_to_map data)))).1 ->
     Q (oid_str (next_oid d)) w') ->
  wp (create_document name data) Q w.
Proof.
  intros Hd Ho H. unfold create_document.
  eapply wp_bind, wp_handle; [done|].
  apply wp_bind, wp_now. intros t1 w1 H1.
  apply wp_bind, wp_now. intros t2 w2 H2.
  apply wp_bind. eapply wp_lift; [unfold available; by rewrite Ho|].
  simpl. apply wp_bind. unfold wp at 1. simpl. by apply wp_ret, (H t1 t2).
Qed.

Lemma wp_for_range {S} (body : S -> M S) (I : nat -> S -> world -> Prop) n :
  forall k s w,
  I k s w ->
  (forall i s w, (k <= i < k + n)%nat -> I i s w -> wp (body s) (I (Datatypes.S i)) w) ->
  wp (for_range n body s) (I (k + n)%nat) w.
Proof.
  induction n as [|n IH]; intros k s w H0 Hstep; simpl.
  - apply wp_ret. by rewrite Nat.add_0_r.
  - apply wp_bind. eapply wp_mono; [|apply (Hstep k); [lia|done]].
    intros s' w' H'. simpl. replace (k + Datatypes.S n)%nat with (Datatypes.S k + n)%nat by lia.
    apply IH; [done|]. intros. apply Hstep; [lia|done].
Qed.

Lemma wp_for_each {A S} (body : A -> S -> M S) (I : list A -> S -> world -> Prop) xs :
  forall pre s w,
  I pre s w ->
  (forall pre' x s w, x ∈ xs -> I pre' s w -> wp (body x s) (I (pre' ++ [x])%list) w) ->
  wp (for_each xs body s) (I (pre ++ xs)%list) w.
Proof.
  induction xs as [|x xs IH]; intros pre s w H0 Hstep; simpl.
  - apply wp_ret. by rewrite app_nil_r.
  - apply wp_bind. eapply wp_mono; [|apply (Hstep pre); [left|done]].
    intros s' w' H'. simpl. rewrite cons_middle, app_assoc.
    apply IH; [done|]. intros. apply Hstep; [by right|done].
Qed.

End MFacts.

(** ** The seeder *)

Module SeedFacts.
Import Py Eff Schemas Store Main Spec PyFacts MFacts.

Lemma coll_insert_one_eq d name f :
  coll (insert_one d name f).1 name
  = (coll d name ++ [Doc (next_oid d) (to_bson <$> f)])%list.
Proof. unfold coll at 1. simpl. by rewrite lookup_insert_eq. Qed.

Lemma coll_insert_one_ne d name name' f :
  name <> name' -> coll (insert_one d name f).1 name' = coll d name'.
Proof. intros. unfold coll. simpl. by rewrite lookup_insert_ne. Qed.

Lemma outage_insert_one d name f : outage (insert_one d name f).1 = outage d.
Proof. done. Qed.

Lemma stamped_lookup (data : list (string * value)) t1 t2 k :
  k <> "created_at" -> k <> "updated_at" ->
  (<["updated_at" := VTime t2]> (<["created_at" := VTime t1]> (list_to_map data))
     : gmap string value) !! k = assoc k data.
Proof.
  intros. rewrite !lookup_insert_ne by done. apply list_to_map_assoc.
Qed.

(** The same for the mapping as the store keeps it. *)
Lemma stored_lookup (data : list (string * value)) t1 t2 k :
  k <> "created_at" -> k <> "updated_at" ->
  (to_bson <$> (<["updated_at" := VTime t2]> (<["created_at" := VTime t1]> (list_to_map data))
                  : gmap string value)) !! k = to_bson <$> assoc k data.
Proof. intros. by rewrite lookup_fmap, stamped_lookup. Qed.

Lemma wp_seed_character n d (Q : Z -> world -> Prop) w :
  db w = Some d -> outage d = None ->
  (forall f w', has_username (Doc (next_oid d) (to_bson <$> f)) ->
     db w' = Some (insert_one d "character" f).1 -> Q (n + 1) w') ->
  wp (seed_character n) Q w.
Proof.
  intros Hd Ho H. unfold seed_character.
  apply wp_bind, wp_choice; [done|]. intros first w1 Hfirst H1.
  apply wp_bind, wp_choice; [done|]. intros last w2 Hlast H2.
  assert (exists word, split_first (first +:+ " " +:+ last) = Some word) as [word ->].
  { unfold first_names in Hfirst. set_unfold. 
    repeat (destruct Hfirst as [->|Hfirst]; [simpl; eauto|]). done. }
  apply wp_bind, wp_ret.
  apply wp_bind, wp_randint; [lia|]. intros suffix w3 _ H3.
  apply wp_bind, wp_choice; [done|]. intros adj w4 _ H4.
  apply wp_bind, wp_randint; [lia|]. intros img w5 _ H5.
  apply wp_bind, wp_randint; [lia|]. intros k w6 Hk H6.
  apply wp_bind, wp_sample; [simpl; lia|]. intros interests w7 H7.
  apply wp_bind, wp_randint; [lia|]. intros followers w8 Hfo H8.
  apply wp_bind, wp_randint; [lia|]. intros following w9 Hfg H9.
  apply wp_bind.
  eapply wp_lift.
  { unfold construct, Character, validate_field; simpl.
    assert (forallb is_str (VStr <$> interests) = true) as ->.
    { apply forallb_forall. intros v Hv. apply list_elem_of_In, list_elem_of_fmap in Hv as (s & -> & _). done. }
    simpl.
    destruct (Z.leb_spec 0 followers); [|lia]. destruct (Z.leb_spec 0 following); [|lia].
    simpl. reflexivity. }
  apply wp_bind. apply (wp_create_document _ _ d); [congruence|done|].
  intros t1 t2 w10 H10. apply wp_ret. eapply H; [|done].
  eexists. cbn [fields]. by rewrite stored_lookup.
Qed.

Lemma wp_getitem c k v (Q : value -> world -> Prop) w :
  get c k = Some v -> Q v w -> wp (getitem c k) Q w.
Proof. intros Hv H. unfold getitem. by rewrite Hv. Qed.

Lemma wp_format v (Q : string -> world -> Prop) w :
  Q (py_str v) w -> wp (format v) Q w.
Proof. intros H. unfold format. by apply wp_ret. Qed.

Lemma authored_by_created c oid (data : list (string * value)) t1 t2 :
  assoc "author_type" data = Some (VStr "character") ->
  assoc "author_id" data = Some (VStr (oid_str (_id c))) ->
  authored_by [c]
    (Doc oid (to_bson <$> <["updated_at" := VTime t2]>
                            (<["created_at" := VTime t1]> (list_to_map data)))).
Proof.
  intros Ht Hi. split; cbn [fields].
  - by rewrite stored_lookup, Ht.
  - exists c. split; [by left|]. by rewrite stored_lookup, Hi.
Qed.

Lemma wp_seed_post c n d (Q : Z -> world -> Prop) w :
  db w = Some d -> outage d = None -> has_username c ->
  (forall f w',
     authored_by [c] (Doc (next_oid d) (to_bson <$> f)) -> image_post (Doc (next_oid d) (to_bson <$> f)) ->
     db w' = Some (insert_one d "post" f).1 -> Q (n + 1) w') ->
  wp (seed_post c n) Q w.
Proof.
  intros Hd Ho [u Hu] H. unfold seed_post.
  apply wp_bind, (wp_getitem _ _ (VStr u)); [done|].
  apply wp_bind, wp_format. cbn [py_str].
  apply wp_bind, wp_randint; [lia|]. intros m w1 _ H1.
  apply wp_bind, wp_choice; [done|]. intros phrase w2 _ H2.
  apply wp_bind, wp_choice; [done|]. intros tag w3 _ H3.
  apply wp_bind, wp_choice; [done|]. intros h1 w4 _ H4.
  apply wp_bind, wp_choice; [done|]. intros h2 w5 _ H5.
  apply wp_bind, wp_randint; [lia|]. intros likes w6 Hl H6.
  apply wp_bind, wp_randint; [lia|]. intros comments w7 Hc H7.
  apply wp_bind. eapply wp_lift.
  { unfold construct, Post, validate_field; simpl.
    destruct (Z.leb_spec 0 likes); [|lia]. destruct (Z.leb_spec 0 comments); [|lia].
    simpl. reflexivity. }
  apply wp_bind. apply (wp_create_document _ _ d); [congruence|done|].
  intros t1 t2 w8 H8. apply wp_ret. eapply H; [| |done].
  - by apply authored_by_created.
  - unfold image_post. cbn [fields]. by rewrite stored_lookup.
Qed.

(** A story is written or not; the counter follows. *)
Lemma wp_seed_story c n d (Q : Z -> world -> Prop) w :
  db w = Some d -> outage d = None -> has_username c ->
  (forall w', db w' = Some d -> Q n w') ->
  (forall f w',
     authored_by [c] (Doc (next_oid d) (to_bson <$> f)) ->
     db w' = Some (insert_one d "story" f).1 -> Q (n + 1) w') ->
  wp (seed_story c n) Q w.
Proof.
  intros Hd Ho [u Hu] Hskip H. unfold seed_story.
  apply wp_bind, wp_randint; [lia|]. intros coin w1 _ H1.
  destruct (coin =? 1).
  - apply wp_bind, (wp_getitem _ _ (VStr u)); [done|].
    apply wp_bind, wp_format. cbn [py_str].
    apply wp_bind, wp_choice; [done|]. intros overlay w2 Hov H2.
    apply wp_bind, wp_now. intros now w3 H3.
    apply wp_bind. eapply wp_lift.
    { assert (has_type TOptStr overlay = true) as Hty.
      { set_unfold. destruct_or!; by subst. }
      unfold construct, Story, validate_field. cbn [fname ftyp fdefault assoc String.eqb Ascii.eqb Bool.eqb required optional].
      simpl assoc. rewrite Hty. simpl. reflexivity. }
    apply wp_bind. apply (wp_create_document _ _ d); [congruence|done|].
    intros t1 t2 w4 H4. apply wp_ret. eapply H; [|done].
    by apply authored_by_created.
  - apply wp_ret, Hskip. congruence.
Qed.

Lemma authored_by_mono c cs p : c ∈ cs -> authored_by [c] p -> authored_by cs p.
Proof.
  intros Hc [Ht (c' & Hc' & Hi)]. split; [done|].
  exists c'. split; [|done]. apply list_elem_of_singleton in Hc'. by subst.
Qed.

Lemma seeded_post cs np ns d c f :
  seeded cs np ns d -> c ∈ cs ->
  authored_by [c] (Doc (next_oid d) (to_bson <$> f)) -> image_post (Doc (next_oid d) (to_bson <$> f)) ->
  seeded cs (Datatypes.S np) ns (insert_one d "post" f).1.
Proof.
  intros (Ho & Hc & Hp & Hs & Fp & Fi & Fs) Hin Ha Him.
  unfold seeded. rewrite coll_insert_one_eq, !coll_insert_one_ne by done.
  rewrite length_app, !Forall_app, !Forall_singleton. simpl.
  repeat split; try done; try lia; by eapply authored_by_mono.
Qed.

Lemma seeded_story cs np ns d c f :
  seeded cs np ns d -> c ∈ cs ->
  authored_by [c] (Doc (next_oid d) (to_bson <$> f)) ->
  seeded cs np (Datatypes.S ns) (insert_one d "story" f).1.
Proof.
  intros (Ho & Hc & Hp & Hs & Fp & Fi & Fs) Hin Ha.
  unfold seeded. rewrite coll_insert_one_eq, !coll_insert_one_ne by done.
  rewrite length_app, !Forall_app, !Forall_singleton. simpl.
  repeat split; try done; try lia; by eapply authored_by_mono.
Qed.

Lemma wp_seed_content P c cs np ns d (Q : Z * Z -> world -> Prop) w :
  db w = Some d -> seeded cs np ns d -> c ∈ cs -> has_username c ->
  (forall d' ns' w', db w' = Some d' -> seeded cs (np + Z.to_nat P) ns' d' ->
     (ns <= ns' <= ns + 1)%nat ->
     Q (Z.of_nat (np + Z.to_nat P), Z.of_nat ns') w') ->
  wp (seed_content P c (Z.of_nat np, Z.of_nat ns)) Q w.
Proof.
  intros Hd Hs Hc Hu H. unfold seed_content. cbn [fst snd].
  apply wp_bind.
  eapply wp_mono;
    [|apply (wp_for_range (seed_post c)
               (fun i n w' => exists d', db w' = Some d' /\ seeded cs (np + i) ns d'
                                         /\ n = Z.of_nat (np + i)) (Z.to_nat P) 0%nat)].
  - cbn beta. intros n w1 (d1 & Hd1 & Hs1 & ->). rewrite Nat.add_0_l in Hs1 |- *.
    apply wp_bind.
    apply (wp_seed_story c (Z.of_nat ns) d1); [done|apply Hs1|done| |].
    + intros w2 Hd2. apply wp_ret. apply (H d1 ns); [done|done|lia].
    + intros f w2 Ha Hd2. apply wp_ret.
      replace (Z.of_nat ns + 1) with (Z.of_nat (Datatypes.S ns)) by lia.
      eapply H; [done| |lia]. by eapply seeded_story.
  - exists d. by rewrite Nat.add_0_r.
  - intros i n w1 _ (d1 & Hd1 & Hs1 & ->).
    apply (wp_seed_post c _ d1); [done|apply Hs1|done|].
    intros f w2 Ha Him Hd2. eexists. split; [done|]. split.
    + rewrite Nat.add_succ_r. by eapply seeded_post.
    + lia.
Qed.

Lemma limit_all {A} (n : Z) (l : list A) : length l = Z.to_nat n -> limit n l = l.
Proof.
  intros Hl. unfold limit. destruct (Z.eqb_spec n 0); [done|].
  apply firstn_all2. lia.
Qed.

(** The first loop, from a store without characters, posts or stories. *)
Lemma wp_seed_characters N d w :
  db w = Some d -> outage d = None ->
  coll d "character" = [] -> coll d "post" = [] -> coll d "story" = [] ->
  wp (for_range (Z.to_nat N) seed_character 0)
     (fun n w' => exists d', db w' = Some d' /\ n = Z.of_nat (Z.to_nat N)
        /\ length (coll d' "character") = Z.to_nat N
        /\ Forall has_username (coll d' "character")
        /\ seeded (coll d' "character") 0 0 d') w.
Proof.
  intros Hd Ho Hc Hp Hs.
  eapply wp_mono;
    [|apply (wp_for_range seed_character
               (fun i n w' => exists d', db w' = Some d' /\ n = Z.of_nat i
                  /\ length (coll d' "character") = i
                  /\ Forall has_username (coll d' "character")
                  /\ seeded (coll d' "character") 0 0 d') (Z.to_nat N) 0%nat)].
  - cbn beta. intros n w' H. by rewrite Nat.add_0_l in H.
  - exists d. unfold seeded. rewrite Hc, Hp, Hs. by repeat split.
  - intros i n w1 _ (d1 & Hd1 & -> & Hlen & Hun & (Ho1 & _ & Hp1 & Hs1 & _)).
    apply (wp_seed_character _ d1); [done..|].
    intros f w2 Hu Hd2. eexists. split; [done|].
    apply nil_length_inv in Hp1, Hs1.
    unfold seeded. rewrite coll_insert_one_eq, !coll_insert_one_ne by done.
    rewrite length_app, Forall_app, Forall_singleton, Hp1, Hs1. simpl.
    repeat split; try done; lia.
Qed.

(** Seeding a store that holds nothing: how many documents each
    collection ends with, what is returned, and who the content is by. *)
Lemma wp_seed_from_empty N P d w :
  db w = Some d -> outage d = None -> empty_store d ->
  wp (ensure_bootstrap N P)
     (fun r w' => exists d' ns, db w' = Some d'
        /\ length (coll d' "character") = Z.to_nat N
        /\ seeded (coll d' "character") (Z.to_nat P * Z.to_nat N) ns d'
        /\ (ns <= Z.to_nat N)%nat
        /\ r = {| characters := Z.of_nat (Z.to_nat N);
                  posts := Z.of_nat (Z.to_nat P * Z.to_nat N);
                  stories := Z.of_nat ns |}) w.
Proof.
  intros Hd Ho He.
  assert (forall (m : M BootstrapResponse) Q,
            wp m Q w -> wp (fun w0 => match db w0 with
                                      | None => raise (HTTPException 500 "Database not configured") w0
                                      | Some _ => m w0
                                      end) Q w) as Hguard.
  { intros m Q. unfold wp. by rewrite Hd. }
  apply Hguard. clear Hguard.
  apply wp_bind, (wp_count_documents _ d); [done..|].
  rewrite (He "character"). cbn [length Z.of_nat Z.leb Z.compare].
  apply wp_bind.
  eapply wp_mono; [|apply (wp_seed_characters N d); by rewrite ?He].
  cbn beta. intros n w1 (d1 & Hd1 & -> & Hlen & Hun & Hs1).
  apply wp_bind, (wp_find _ _ d1); [done|apply Hs1|].
  rewrite limit_all by done.
  set (cs := coll d1 "character") in *.
  apply wp_bind.
  eapply wp_mono;
    [|apply (wp_for_each (seed_content P)
               (fun pre s w' => exists d' ns, db w' = Some d'
                  /\ seeded cs (Z.to_nat P * length pre) ns d'
                  /\ (ns <= length pre)%nat
                  /\ s = (Z.of_nat (Z.to_nat P * length pre), Z.of_nat ns)) cs [])].
  - cbn beta. intros s w2 (d2 & ns & Hd2 & Hs2 & Hns & ->). apply wp_ret.
    rewrite app_nil_l, Hlen in *. exists d2, ns.
    assert (coll d2 "character" = cs) as -> by apply Hs2. done.
  - exists d1, 0%nat. simpl. rewrite Nat.mul_0_r. done.
  - intros pre c s w2 Hc (d2 & ns & Hd2 & Hs2 & Hns & ->).
    apply (wp_seed_content P c cs _ _ d2); [done..| |].
    + by eapply Forall_forall in Hun.
    + intros d3 ns' w3 Hd3 Hs3 Hns'. exists d3, ns'.
      rewrite length_app. simpl.
      replace (Z.to_nat P * (length pre + 1))%nat
        with (Z.to_nat P * length pre + Z.to_nat P)%nat by lia.
      split; [done|]. split; [done|]. split; [lia|done].
Qed.

End SeedFacts.

(** ** Hydration *)

Module HydrationFacts.
Import Py Eff Schemas Store Main Spec PyFacts MFacts SeedFacts.

Lemma char_map_of_snoc cs c :
  char_map_of (cs ++ [c]) = <[oid_str (_id c) := c]> (char_map_of cs).
Proof. unfold char_map_of. by rewrite foldl_snoc. Qed.

Lemma char_map_of_Some cs s c :
  char_map_of cs !! s = Some c -> c ∈ cs /\ s = oid_str (_id c).
Proof.
  revert c. induction cs as [|c' cs' IH] using rev_ind; intros c; [done|].
  rewrite char_map_of_snoc, lookup_insert. case_decide as Hk.
  - intros [= ->]. split; [|done]. apply elem_of_app. right. by apply list_elem_of_singleton.
  - intros Hs. destruct (IH _ Hs). split; [|done]. apply elem_of_app. by left.
Qed.

Lemma char_map_of_is_Some cs c :
  c ∈ cs -> is_Some (char_map_of cs !! oid_str (_id c)).
Proof.
  induction cs as [|c' cs' IH] using rev_ind; [by intros ?%elem_of_nil|].
  rewrite char_map_of_snoc, lookup_insert. case_decide; [by eauto|].
  intros [?|Hc%list_elem_of_singleton]%elem_of_app; [by apply IH|by subst].
Qed.

(** With distinct identifiers the map gives back the very document. *)
Lemma char_map_of_lookup cs c :
  NoDup (_id <$> cs) -> c ∈ cs -> char_map_of cs !! oid_str (_id c) = Some c.
Proof.
  intros Hnd Hc. destruct (char_map_of_is_Some cs c Hc) as [c' Hc'].
  rewrite Hc'. f_equal.
  apply char_map_of_Some in Hc' as [Hin Heq%oid_str_inj].
  apply list_elem_of_lookup in Hc as [i Hi], Hin as [j Hj].
  assert (i = j) as ->; [|congruence].
  eapply NoDup_lookup; [done| |]; rewrite list_lookup_fmap.
  - by rewrite Hi.
  - rewrite Hj. simpl. by rewrite Heq.
Qed.

Lemma hydrate_inv cm p p' w w' :
  hydrate cm p w = (Ok p', w') -> p' = hydrated cm p /\ w' = w.
Proof.
  unfold hydrate, hydrated, dict_get.
  destruct (get p "author_id") as [[]|]; simpl; try by intros [= <- <-].
  unfold mbind, M_bind, mret, M_ret. simpl. destruct (cm !! s); by intros [= <- <-].
Qed.

Lemma map_M_hydrate_inv cm ps ps' w w' :
  map_M (hydrate cm) ps w = (Ok ps', w') -> ps' = hydrated cm <$> ps /\ w' = w.
Proof.
  revert ps' w w'. induction ps as [|p ps IH]; intros ps' w w'; simpl.
  - by intros [= <- <-].
  - unfold mbind, M_bind at 1.
    destruct (hydrate cm p w) as [[p1|e] w1] eqn:Hp; [|done].
    apply hydrate_inv in Hp as [-> ->].
    unfold mbind, M_bind at 1.
    destruct (map_M (hydrate cm) ps w) as [[ps1|e] w1] eqn:Hps; [|done].
    apply IH in Hps as [-> ->]. by intros [= <- <-].
Qed.

Lemma map_M_hydrate_ok cm ps w :
  Forall hashable_author ps -> map_M (hydrate cm) ps w = (Ok (hydrated cm <$> ps), w).
Proof.
  induction 1 as [|p ps Hp _ IH]; [done|]. simpl.
  unfold mbind, M_bind at 1.
  assert (hydrate cm p w = (Ok (hydrated cm p), w)) as ->.
  { unfold hashable_author in Hp. unfold hydrate, hydrated, dict_get.
    destruct (get p "author_id") as [[]|]; try done.
    unfold mbind, M_bind, mret, M_ret. simpl. by destruct (cm !! s). }
  unfold mbind, M_bind at 1. by rewrite IH.
Qed.

Lemma find_run {A} name (shape : list doc -> A) d w :
  db w = Some d -> outage d = None -> find name shape w = (Ok (shape (coll d name)), w).
Proof.
  intros Hd Ho. unfold find, mbind, M_bind, handle, lift, available. by rewrite Hd, Ho.
Qed.

(** The encoder stops at the identifier of a fetched document. *)
Lemma encode_as_dict d : encode (as_dict d) = None.
Proof. done. Qed.

Lemma jsonable_encoder_nil : jsonable_encoder (VList (as_dict <$> [])) = Ok (VList []).
Proof. done. Qed.

Lemma jsonable_encoder_docs (l : list doc) :
  l <> [] -> jsonable_encoder (VList (as_dict <$> l)) = Raise not_encodable.
Proof. destruct l as [|d l]; [done|]. intros _. done. Qed.

Lemma jsonable_encoder_doc d : jsonable_encoder (as_dict d) = Raise not_encodable.
Proof. done. Qed.

Lemma limit_nil {A} (n : Z) (l : list A) : limit n l = [] <-> l = [].
Proof.
  unfold limit. destruct (Z.eqb_spec n 0); [done|].
  destruct l as [|x l]; [by rewrite take_nil|].
  destruct (Z.to_nat (Z.abs n)) eqn:E; [lia|done].
Qed.

Lemma fetched_nil k limit_ d : fetched k limit_ d = [] <-> coll d (listing_coll k) = [].
Proof.
  unfold fetched. rewrite limit_nil. unfold sort_desc. split; intros H.
  - apply Permutation_nil_r. rewrite <- H. symmetry. apply merge_sort_Permutation.
  - by rewrite H.
Qed.

Lemma fetched_subseteq k limit_ d p : p ∈ fetched k limit_ d -> p ∈ coll d (listing_coll k).
Proof.
  unfold fetched, limit, sort_desc. intros Hp.
  destruct (limit_ =? 0); [|apply subseteq_take in Hp].
  all: by rewrite merge_sort_Permutation in Hp.
Qed.

(** A listing whose items can all be looked up: it returns the empty
    list when it fetched nothing, and fails to encode otherwise. *)
Lemma listing_run k limit_ d w :
  db w = Some d -> outage d = None -> Forall hashable_author (coll d (listing_coll k)) ->
  listing_handler k limit_ w
  = (match fetched k limit_ d with
     | [] => Ok (VList [])
     | _ => Raise (listing_failure k)
     end, w).
Proof.
  intros Hd Ho Hh.
  assert (Forall hashable_author (fetched k limit_ d)) as Hh'.
  { apply Forall_forall. intros p Hp. eapply Forall_forall; [exact Hh|].
    by eapply fetched_subseteq. }
  unfold fetched in *.
  destruct k; simpl in *; unfold get_feed, get_stories, try_except;
    unfold mbind at 1, M_bind at 1; rewrite (find_run _ _ d) by done;
    repeat (unfold mbind at 1, M_bind at 1; rewrite (find_run _ _ d) by done);
    unfold mbind at 1, M_bind at 1; rewrite map_M_hydrate_ok by done;
    unfold lift;
    destruct (limit limit_ (sort_desc "created_at" _)) as [|p ps]; done.
Qed.

End HydrationFacts.

(** ** Stored records *)

Module RecordFacts.
Import Py Eff Schemas Store Main Spec PyFacts MFacts SeedFacts HydrationFacts.

Lemma is_record_field m d f :
  is_record m d = true -> f ∈ m ->
  exists v, fields d !! fname f = Some v
            /\ has_type (ftyp f) v = true /\ constraint_ok (ftyp f) v = true.
Proof.
  unfold is_record. intros [Hf _]%andb_prop Hin.
  rewrite forallb_forall in Hf. apply list_elem_of_In, Hf in Hin.
  destruct (fields d !! fname f) as [v|]; [|done].
  apply andb_prop in Hin as [??]. eauto.
Qed.

End RecordFacts.

(** ** The like endpoint *)

Module LikeFacts.
Import Py Eff Schemas Store Main Spec PyFacts MFacts SeedFacts HydrationFacts RecordFacts.

Lemma update_first_missing oid ops l :
  (forall p, p ∈ l -> _id p <> oid) ->
  update_first oid ops l = Ok (l, {| matched_count := 0; modified_count := 0 |}).
Proof.
  induction l as [|q l IH]; intros H; simpl; [done|].
  rewrite decide_False by (apply H; left). rewrite IH; [done|].
  intros p Hp. apply H. by right.
Qed.

Lemma update_first_like l1 p l2 n now :
  (forall q, q ∈ l1 -> _id q <> _id p) ->
  fields p !! "like_count" = Some (VInt n) ->
  update_first (_id p) [Inc "like_count" 1; Set_ "updated_at" (VTime now)] (l1 ++ p :: l2)%list
  = Ok ((l1 ++ liked p n now :: l2)%list, {| matched_count := 1; modified_count := 1 |}).
Proof.
  intros H Hn. induction l1 as [|q l1 IH]; simpl.
  - rewrite decide_True by done. rewrite Hn. done.
  - rewrite decide_False by (apply H; left). rewrite IH; [done|].
    intros q' Hq'. apply H. by right.
Qed.

Lemma find_one_first oid l1 p l2 :
  (forall q, q ∈ l1 -> _id q <> oid) -> _id p = oid ->
  find_one oid (l1 ++ p :: l2)%list = Some p.
Proof.
  intros H Hp. unfold find_one. induction l1 as [|q l1 IH]; simpl.
  - by rewrite bool_decide_eq_true_2.
  - rewrite bool_decide_eq_false_2 by (apply H; left). apply IH.
    intros q' Hq'. apply H. by right.
Qed.

(** With distinct identifiers, a stored document is the first of its id. *)
Lemma split_at_id (l : list doc) p :
  NoDup (_id <$> l) -> p ∈ l ->
  exists l1 l2, l = (l1 ++ p :: l2)%list /\ forall q, q ∈ l1 -> _id q <> _id p.
Proof.
  intros Hnd (l1 & l2 & ->)%list_elem_of_split. exists l1, l2. split; [done|].
  intros q Hq Heq. rewrite fmap_app, fmap_cons in Hnd.
  apply NoDup_app in Hnd as (_ & Hnd & _). apply (Hnd (_id q)).
  - apply list_elem_of_fmap. eauto.
  - rewrite Heq. left.
Qed.

Lemma coll_set_coll_eq d name l : coll (set_coll d name l) name = l.
Proof. unfold coll. simpl. by rewrite lookup_insert_eq. Qed.

Lemma coll_set_coll_ne d name name' l :
  name <> name' -> coll (set_coll d name l) name' = coll d name'.
Proof. intros. unfold coll. simpl. by rewrite lookup_insert_ne. Qed.

(** A like of a stored post whose counter is a number: the post is
    counted and stamped, and then the encoder fails on the fetched post. *)
Lemma like_post_run post_id oid w d l1 p l2 n :
  db w = Some d -> outage d = None ->
  ObjectId post_id = Some oid ->
  coll d "post" = (l1 ++ p :: l2)%list ->
  (forall q, q ∈ l1 -> _id q <> oid) -> _id p = oid ->
  fields p !! "like_count" = Some (VInt n) ->
  like_post post_id w
  = (Raise (HTTPException 400 (exc_str not_encodable)),
     after_tick w (Some (set_coll d "post" (l1 ++ liked p n (clk w 0%nat) :: l2)%list))).
Proof.
  intros Hd Ho Hid Hc Hl1 Hp Hn. subst oid.
  unfold like_post, try_except, update_one, find, handle, _now, lift, available, put_db,
    mbind, M_bind, mret, M_ret.
  rewrite Hd, Hid. simpl. rewrite Hd, Ho, Hc, (update_first_like _ _ _ n) by done. simpl.
  rewrite Ho, coll_set_coll_eq, find_one_first by done. done.
Qed.

(** A like of an identifier that no post has. *)
Lemma like_post_missing post_id oid w d :
  db w = Some d -> outage d = None ->
  ObjectId post_id = Some oid ->
  (forall p, p ∈ coll d "post" -> _id p <> oid) ->
  like_post post_id w
  = (Raise (HTTPException 400 "404: Post not found"), after_tick w (Some d)).
Proof.
  intros Hd Ho Hid Hno.
  unfold like_post, try_except, update_one, find, handle, _now, lift, available, put_db,
    mbind, M_bind, mret, M_ret.
  rewrite Hd, Hid. simpl. rewrite Hd, Ho, update_first_missing by done. done.
Qed.

(** A like with no handle. *)
Lemma like_post_unset post_id w :
  db w = None ->
  like_post post_id w
  = (Raise (HTTPException 400 "'NoneType' object is not subscriptable"), w).
Proof.
  intros Hd. unfold like_post, try_except, handle, mbind, M_bind. by rewrite Hd.
Qed.

End LikeFacts.

(** ** Validation *)

Module SchemaFacts.
Import Py Eff Schemas Store Main Spec PyFacts MFacts SeedFacts HydrationFacts RecordFacts LikeFacts.

Lemma validate_field_raises f arg e :
  validate_field f arg = Raise e -> exists msg, e = PyError "ValidationError" msg.
Proof.
  unfold validate_field, ValidationError. destruct arg as [v|].
  - destruct (negb (has_type (ftyp f) v)); [intros [= <-]; eauto|].
    destruct (negb (constraint_ok (ftyp f) v)); [intros [= <-]; eauto|done].
  - destruct (fdefault f); [done|]. intros [= <-]; eauto.
Qed.

Lemma construct_raises m kwargs e :
  construct m kwargs = Raise e -> exists msg, e = PyError "ValidationError" msg.
Proof.
  induction m as [|f m IH]; simpl; [done|].
  destruct (validate_field f _) as [v|e'] eqn:Hv.
  - destruct (construct m kwargs) as [rest|e'']; [done|]. intros [= <-]. by apply IH.
  - intros [= <-]. by eapply validate_field_raises.
Qed.

(** One field that does not validate is enough for the construction to fail. *)
Lemma construct_field_fails m kwargs f e :
  f ∈ m -> validate_field f (assoc (fname f) kwargs) = Raise e ->
  is_ValidationError (construct m kwargs).
Proof.
  intros Hin Hf. unfold is_ValidationError.
  assert (exists e', construct m kwargs = Raise e') as [e' He'].
  { induction m as [|g m IH]; [by apply elem_of_nil in Hin|]. simpl.
    destruct (validate_field g _) as [v|e1] eqn:Hg; [|by eauto].
    apply elem_of_cons in Hin as [->|Hin]; [congruence|].
    destruct (IH Hin) as [e' ->]. eauto. }
  destruct (construct_raises _ _ _ He') as [msg ->]. eauto.
Qed.

Lemma validate_field_ok f kwargs :
  supplied_ok f kwargs -> exists v, validate_field f (assoc (fname f) kwargs) = Ok v.
Proof.
  unfold supplied_ok, validate_field. destruct (assoc _ _) as [v|].
  - intros [-> ->]. simpl. eauto.
  - destruct (fdefault f); [eauto|done].
Qed.

Lemma construct_ok m kwargs :
  (forall f, f ∈ m -> supplied_ok f kwargs) -> exists data, construct m kwargs = Ok data.
Proof.
  induction m as [|f m IH]; intros H; simpl; [eauto|].
  destruct (validate_field_ok f kwargs) as [v ->]; [apply H; left|].
  destruct IH as [rest ->]; [|eauto]. intros g Hg. apply H. by right.
Qed.

Lemma in_literal_spec allowed v :
  in_literal allowed v = true <-> v ∈ VStr <$> allowed.
Proof.
  unfold in_literal. split.
  - destruct v; try done. intros (s' & Hin & ->%String.eqb_eq)%existsb_exists.
    apply list_elem_of_fmap. exists s'. split; [done|]. by apply list_elem_of_In.
  - intros (s & -> & Hin)%list_elem_of_fmap. apply existsb_exists.
    exists s. split; [by apply list_elem_of_In|]. apply String.eqb_refl.
Qed.

End SchemaFacts.

(** ** The claims *)

Module Claims.
Import Py Eff Schemas Store Main Spec Samples PyFacts MFacts SeedFacts HydrationFacts RecordFacts LikeFacts SchemaFacts.

Example oid_str_example : oid_str 255 = "0000000000000000000000ff".
Proof. reflexivity. Qed.

Example ObjectId_example :
  ObjectId "507F1f77bcf86cd799439011" = Some 24912482966938930280208240657%N
  /\ ObjectId "not-a-valid-id" = None
  /\ ObjectId "507f1f77bcf86cd7994390 1" = None
  /\ (exists o, ObjectId "507f1f77bcf86cd7994390  " = Some o /\ (2 ^ 96 <= o)%N).
Proof.
  split; [reflexivity|]. split; [reflexivity|]. split; [reflexivity|].
  eexists. split; [vm_compute; reflexivity|]. vm_compute. discriminate.
Qed.

Example repr_str_example :
  repr_str "not-a-valid-id" = "'not-a-valid-id'"
  /\ repr_str "it's" = String "034"%char ("it's" +:+ String "034"%char "")
  /\ repr_str (String "010"%char "") = String "039"%char (String "092"%char "n'").
Proof. repeat split; reflexivity. Qed.

Example isoformat_example :
  isoformat 0 = "1970-01-01T00:00:00+00:00"
  /\ isoformat (1700000000 * 1000000 + 250) = "2023-11-14T22:13:20.000250+00:00"
  /\ isoformat (951782400 * 1000000) = "2000-02-29T00:00:00+00:00"
  /\ to_bson (VTime (1700000000 * 1000000 + 123456)) = VTime (1700000000 * 1000000 + 123000)
  /\ isoformat_naive (1700000000 * 1000000 + 123000) = "2023-11-14T22:13:20.123000".
Proof. repeat split; vm_compute; reflexivity. Qed.

Example split_first_example : split_first "Ava Wilde" = Some "Ava".
Proof. reflexivity. Qed.


Lemma listing_fails k limit_ d w :
  db w = Some d -> outage d = None ->
  coll d (listing_coll k) <> [] -> Forall hashable_author (coll d (listing_coll k)) ->
  listing_handler k limit_ w = (Raise (listing_failure k), w).
Proof.
  intros Hd Ho Hne Hh. rewrite (listing_run k limit_ d) by done.
  destruct (fetched k limit_ d) eqn:E; [|done]. by apply fetched_nil in E.
Qed.





Lemma bind_run {A B} (m : M A) (f : A -> M B) w a w' :
  m w = (Ok a, w') -> (m ≫= f) w = f a w'.
Proof. intros H. unfold mbind, M_bind. by rewrite H. Qed.

(** The threshold check: with five characters or more the seeder only counts. *)
Lemma ensure_bootstrap_short_circuit N P w d :
  db w = Some d -> outage d = None -> (5 <= length (coll d "character"))%nat ->
  ensure_bootstrap N P w
  = (Ok {| characters := Z.of_nat (length (coll d "character"));
           posts := Z.of_nat (length (coll d "post"));
           stories := Z.of_nat (length (coll d "story")) |}, w).
Proof.
  intros Hd Ho H5.
  assert (forall name, count_documents name w = (Ok (Z.of_nat (length (coll d name))), w)) as Hc.
  { intros name. unfold count_documents. by rewrite (find_run _ _ d). }
  unfold ensure_bootstrap. rewrite Hd.
  rewrite (bind_run _ _ _ _ _ (Hc "character")).
  destruct (Z.leb_spec 5 (Z.of_nat (length (coll d "character")))); [|lia].
  rewrite (bind_run _ _ _ _ _ (Hc "post")). by rewrite (bind_run _ _ _ _ _ (Hc "story")).
Qed.

(** C1. On a store with at least five Character records the seeder, for
    any character_count and posts_per_character, leaves the world as it
    found it (no record is created) and returns the store's counts of
    characters, posts and stories. *)
Theorem bootstrap_already_seeded (N P : Z) (w : world) (d : database) :
  db w = Some d -> outage d = None -> (5 <= length (coll d "character"))%nat ->
  exists r,
    ensure_bootstrap N P w = (Ok r, w)
    /\ characters r = Z.of_nat (length (coll d "character"))
    /\ posts r = Z.of_nat (length (coll d "post"))
    /\ stories r = Z.of_nat (length (coll d "story")).
Proof.
  intros Hd Ho H5. eexists. split; [by apply ensure_bootstrap_short_circuit|]. done.
Qed.

Lemma bootstrap_already_seeded_witness :
  exists r,
    ensure_bootstrap 24 2 crowded = (Ok r, crowded)
    /\ characters r = Z.of_nat (length (coll (store_of crowded) "character"))
    /\ posts r = Z.of_nat (length (coll (store_of crowded) "post"))
    /\ stories r = Z.of_nat (length (coll (store_of crowded) "story")).
Proof.
  apply (bootstrap_already_seeded 24 2 crowded (store_of crowded));
    vm_compute; [reflexivity | reflexivity | lia].
Defined.

(** C6 (as amended). When the seeder short-circuits at the threshold
    check it returns the store's current counts, not zeros: the characters
    count is the number of stored characters, which is at least five. *)
Theorem short_circuit_returns_store_counts (N P : Z) (w : world) (d : database) :
  db w = Some d -> outage d = None -> (5 <= length (coll d "character"))%nat ->
  exists r,
    (ensure_bootstrap N P w).1 = Ok r
    /\ 5 <= characters r
    /\ characters r = Z.of_nat (length (coll d "character"))
    /\ posts r = Z.of_nat (length (coll d "post"))
    /\ stories r = Z.of_nat (length (coll d "story")).
Proof.
  intros Hd Ho H5. eexists. rewrite (ensure_bootstrap_short_circuit N P w d) by done.
  split; [done|]. simpl. repeat split. lia.
Qed.

Lemma short_circuit_returns_store_counts_witness :
  exists r,
    (ensure_bootstrap 24 2 crowded).1 = Ok r
    /\ 5 <= characters r
    /\ characters r = Z.of_nat (length (coll (store_of crowded) "character"))
    /\ posts r = Z.of_nat (length (coll (store_of crowded) "post"))
    /\ stories r = Z.of_nat (length (coll (store_of crowded) "story")).
Proof.
  apply (short_circuit_returns_store_counts 24 2 crowded (store_of crowded));
    vm_compute; [reflexivity | reflexivity | lia].
Defined.

(** C6 as stated fails: on a store with five characters and five posts
    the short-circuit returns 5, 5 and 2, not 0, 0 and 0. *)
Lemma short_circuit_counts_not_zero :
  (5 <= length (coll (store_of crowded) "character"))%nat
  /\ (ensure_bootstrap 24 2 crowded).1 = Ok {| characters := 5; posts := 5; stories := 2 |}
  /\ (ensure_bootstrap 24 2 crowded).1 <> Ok {| characters := 0; posts := 0; stories := 0 |}.
Proof.
  split; [vm_compute; lia|].
  assert ((ensure_bootstrap 24 2 crowded).1 = Ok {| characters := 5; posts := 5; stories := 2 |})
    as -> by (vm_compute; reflexivity).
  split; [reflexivity|]. intros H. discriminate H.
Qed.

(** C2. Seeding an empty store with character_count N and
    posts_per_character P (both counts, so not negative) returns, leaves
    exactly N characters, P * N posts and between 0 and N stories in the
    store, and reports N, P * N and the number of stories. *)
Theorem bootstrap_from_empty (N P : Z) (w : world) (d : database) :
  db w = Some d -> outage d = None -> empty_store d ->
  0 <= N -> 0 <= P ->
  exists r w' d',
    ensure_bootstrap N P w = (Ok r, w') /\ db w' = Some d'
    /\ Z.of_nat (length (coll d' "character")) = N
    /\ Z.of_nat (length (coll d' "post")) = P * N
    /\ 0 <= Z.of_nat (length (coll d' "story")) <= N
    /\ characters r = N
    /\ posts r = P * N
    /\ stories r = Z.of_nat (length (coll d' "story")).
Proof.
  intros Hd Ho He HN HP.
  pose proof (wp_seed_from_empty N P d w Hd Ho He) as H.
  apply wp_returns in H as (r & w' & Hrun & d' & ns & Hd' & Hlen & Hs & Hns & ->).
  destruct Hs as (_ & _ & Hp & Hst & _).
  eexists. exists w', d'. split; [exact Hrun|]. split; [done|]. simpl.
  rewrite Hlen, Hp, Hst. repeat split; lia.
Qed.

Lemma empty_store_blank : empty_store blank.
Proof. intros name. unfold coll, blank. simpl. by rewrite lookup_empty. Qed.

Lemma bootstrap_from_empty_witness :
  exists r w' d',
    ensure_bootstrap 3 1 fresh = (Ok r, w') /\ db w' = Some d'
    /\ Z.of_nat (length (coll d' "character")) = 3
    /\ Z.of_nat (length (coll d' "post")) = 1 * 3
    /\ 0 <= Z.of_nat (length (coll d' "story")) <= 3
    /\ characters r = 3
    /\ posts r = 1 * 3
    /\ stories r = Z.of_nat (length (coll d' "story")).
Proof.
  apply (bootstrap_from_empty 3 1 fresh blank);
    [reflexivity | reflexivity | exact empty_store_blank | lia | lia].
Defined.

(** C4 (the code departs from the claim). A like of a stored post whose
    like_count is the number n is counted: in the store like_count is
    n + 1, updated_at is the time of the request (in milliseconds, as the
    store keeps it), every other field is as before, the post keeps its
    place and no other document of any collection changes.  But the
    updated post is not returned: it is fetched with its ObjectId under
    [_id], the encoder raises its ValueError inside the guarded block, and
    the client gets status 400 with the text of that error.  The counter
    is one the store can count up (a 64-bit integer below the largest). *)
Theorem like_is_counted_but_answers_400 (post_id : string) (oid : N) (w : world)
    (d : database) (p : doc) (n : Z) :
  db w = Some d -> outage d = None ->
  ObjectId post_id = Some oid ->
  NoDup (_id <$> coll d "post") ->
  p ∈ coll d "post" -> _id p = oid ->
  fields p !! "like_count" = Some (VInt n) -> - 2 ^ 63 <= n < 2 ^ 63 - 1 ->
  exists l1 l2 p',
    coll d "post" = (l1 ++ p :: l2)%list
    /\ like_post post_id w
       = (Raise (HTTPException 400 (exc_str not_encodable)),
          after_tick w (Some (set_coll d "post" (l1 ++ p' :: l2)%list)))
    /\ serve (like_post post_id) w
       = (Failure 400 (exc_str not_encodable),
          after_tick w (Some (set_coll d "post" (l1 ++ p' :: l2)%list)))
    /\ _id p' = _id p
    /\ fields p' !! "like_count" = Some (VInt (n + 1))
    /\ fields p' !! "updated_at" = Some (VTime (clk w 0%nat / 1000 * 1000))
    /\ (forall k, k <> "like_count" -> k <> "updated_at" -> fields p' !! k = fields p !! k)
    /\ (forall name, name <> "post" ->
          coll (set_coll d "post" (l1 ++ p' :: l2)%list) name = coll d name).
Proof.
  intros Hd Ho Hid Hnd Hp Hoid Hn _.
  destruct (split_at_id _ _ Hnd Hp) as (l1 & l2 & Hc & Hl1).
  assert (like_post post_id w
          = (Raise (HTTPException 400 (exc_str not_encodable)),
             after_tick w (Some (set_coll d "post"
                                   (l1 ++ liked p n (clk w 0%nat) :: l2)%list)))) as Hrun.
  { apply (like_post_run _ oid); try done. by rewrite <- Hoid. }
  exists l1, l2, (liked p n (clk w 0%nat)). split; [done|]. split; [done|].
  split; [unfold serve; by rewrite Hrun|].
  split; [done|]. unfold liked. cbn [fields].
  split; [by rewrite lookup_insert_ne, lookup_insert_eq|].
  split; [by rewrite lookup_insert_eq|]. split.
  - intros k ??. by rewrite !lookup_insert_ne.
  - intros name ?. by apply coll_set_coll_ne.
Qed.

Lemma like_is_counted_but_answers_400_witness :
  exists l1 l2 p',
    coll (store_of lively) "post" = (l1 ++ first_post :: l2)%list
    /\ like_post first_post_id lively
       = (Raise (HTTPException 400 (exc_str not_encodable)),
          after_tick lively (Some (set_coll (store_of lively) "post" (l1 ++ p' :: l2)%list)))
    /\ serve (like_post first_post_id) lively
       = (Failure 400 (exc_str not_encodable),
          after_tick lively (Some (set_coll (store_of lively) "post" (l1 ++ p' :: l2)%list)))
    /\ _id p' = _id first_post
    /\ fields p' !! "like_count" = Some (VInt (193 + 1))
    /\ fields p' !! "updated_at" = Some (VTime (clk lively 0%nat / 1000 * 1000))
    /\ (forall k, k <> "like_count" -> k <> "updated_at" ->
          fields p' !! k = fields first_post !! k)
    /\ (forall name, name <> "post" ->
          coll (set_coll (store_of lively) "post" (l1 ++ p' :: l2)%list) name
          = coll (store_of lively) name).
Proof.
  apply (like_is_counted_but_answers_400 first_post_id (_id first_post) lively
           (store_of lively) first_post 193).
  - vm_compute. reflexivity.
  - vm_compute. reflexivity.
  - vm_compute. reflexivity.
  - apply (bool_decide_unpack _). vm_compute. exact I.
  - vm_compute. apply list_elem_of_here.
  - reflexivity.
  - vm_compute. reflexivity.
  - lia.
Defined.

(** C5 (the code departs from the claim). A like of a well-formed
    identifier that no post has raises the 404 inside the guarded block,
    so the client gets status 400 with the text of that exception; the
    store is left as it was. *)
Theorem like_missing_post_is_400 :
  ObjectId stranger = Some 24912482966938930280208240657%N
  /\ (forall p, p ∈ coll (store_of lively) "post" -> _id p <> 24912482966938930280208240657%N)
  /\ (serve (like_post stranger) lively).1 = Failure 400 "404: Post not found"
  /\ db (serve (like_post stranger) lively).2 = db lively.
Proof.
  split; [reflexivity|]. split; [|split].
  - assert (Forall (fun q => _id q <> 24912482966938930280208240657%N)
              (coll (store_of lively) "post")) as H.
    { apply (bool_decide_unpack _). vm_compute. exact I. }
    intros p Hp. exact (proj1 (Forall_forall _ _) H p Hp).
  - vm_compute. reflexivity.
  - vm_compute. reflexivity.
Qed.

(** C7 (the code departs from the claim). With the store unreachable
    GET /api/feed answers 500 with the text of the exception, while
    GET /api/stories lets the exception leave the handler: the client gets
    the bare 500 response, without that text. *)
Theorem stories_outage_is_unhandled :
  (get_stories 20 down).1 = Raise (PyError "PyMongoError" "connection refused")
  /\ (serve (get_stories 20) down).1 = Failure 500 "Internal Server Error"
  /\ (serve (get_feed 25) down).1 = Failure 500 "connection refused".
Proof. repeat split; vm_compute; reflexivity. Qed.

(** C8 (the code departs from the claim). With the handle unset only the
    bootstrap endpoint answers 500 "Database not configured"; the feed
    answers 500 with the text of the TypeError, stories and characters let
    the TypeError leave the handler, and the like endpoint answers 400. *)
Theorem unset_handle_responses :
  (serve api_bootstrap unset).1 = Failure 500 "Database not configured"
  /\ (serve (get_feed 25) unset).1 = Failure 500 "'NoneType' object is not subscriptable"
  /\ (get_stories 20 unset).1 = TypeError_None
  /\ (serve (get_stories 20) unset).1 = Failure 500 "Internal Server Error"
  /\ (get_characters 50 unset).1 = TypeError_None
  /\ (serve (get_characters 50) unset).1 = Failure 500 "Internal Server Error"
  /\ (serve (like_post stranger) unset).1
     = Failure 400 "'NoneType' object is not subscriptable".
Proof. repeat split; vm_compute; reflexivity. Qed.

(** C9 as stated fails: a Reel with like_count -1 is constructed. *)
Lemma reel_accepts_negative_like_count :
  construct Reel [("author_id", VStr "c1"); ("media_url", VStr "https://v/1"); ("like_count", VInt (-1))]
  = Ok [ ("author_type", VStr "character"); ("author_id", VStr "c1");
         ("media_url", VStr "https://v/1"); ("caption", VNone);
         ("like_count", VInt (-1)); ("comment_count", VInt 0) ]
  /\ ~ is_ValidationError
        (construct Reel [("author_id", VStr "c1"); ("media_url", VStr "https://v/1");
                         ("like_count", VInt (-1))]).
Proof.
  split; [reflexivity|]. intros [msg H]. discriminate H.
Qed.

(** C9 (as amended). For every entity: a missing required field, a
    supplied value outside the field's literal set, or an integer below
    the minimum the field declares makes the construction fail with a
    ValidationError; a minimum (always 0) is declared by followers and
    following of Character and like_count and comment_count of Post only;
    and the construction succeeds whenever every required field is
    supplied and every supplied value has the field's type, is in its
    literal set and is not below its declared minimum. *)
Theorem validation_contract (name : string) (m : model) (kwargs : list (string * value)) :
  (name, m) ∈ entities ->
  (forall f, f ∈ m -> fdefault f = None -> assoc (fname f) kwargs = None ->
     is_ValidationError (construct m kwargs))
  /\ (forall f allowed v, f ∈ m -> ftyp f = TLiteral allowed ->
        assoc (fname f) kwargs = Some v -> v ∉ VStr <$> allowed ->
        is_ValidationError (construct m kwargs))
  /\ (forall f lo z, f ∈ m -> ftyp f = TInt (Some lo) ->
        assoc (fname f) kwargs = Some (VInt z) -> z < lo ->
        is_ValidationError (construct m kwargs))
  /\ (forall f lo, f ∈ m -> ftyp f = TInt (Some lo) ->
        lo = 0 /\ (name, fname f) ∈ bounded_fields)
  /\ ((forall f, f ∈ m -> supplied_ok f kwargs) ->
      exists data, construct m kwargs = Ok data).
Proof.
  intros Hent. split; [|split; [|split; [|split]]].
  - intros f Hf Hreq Harg. eapply (construct_field_fails _ _ f); [done|].
    unfold validate_field. by rewrite Harg, Hreq.
  - intros f allowed v Hf Hty Harg Hout. eapply (construct_field_fails _ _ f); [done|].
    unfold validate_field. rewrite Harg, Hty. simpl.
    destruct (in_literal allowed v) eqn:Hin; [by apply in_literal_spec in Hin|]. done.
  - intros f lo z Hf Hty Harg Hlt. eapply (construct_field_fails _ _ f); [done|].
    unfold validate_field. rewrite Harg, Hty. simpl.
    destruct (Z.leb_spec lo z); [lia|]. done.
  - intros f lo Hf Hty. unfold entities, bounded_fields in *.
    repeat (apply elem_of_cons in Hent as [[= -> ->]|Hent];
            [repeat (apply elem_of_cons in Hf as [->|Hf]; [try discriminate Hty|]);
             try (by apply elem_of_nil in Hf);
             injection Hty as <-; (split; [done|]); simpl;
             repeat (first [apply list_elem_of_here | apply list_elem_of_further])|]).
    by apply elem_of_nil in Hent.
  - apply construct_ok.
Qed.

Lemma validation_contract_witness :
  exists data,
    construct Post [("author_id", VStr "c1"); ("media_url", VStr "https://i/1");
                    ("type", VStr "video"); ("like_count", VInt 0)] = Ok data.
Proof.
  destruct (validation_contract "Post" Post
              [("author_id", VStr "c1"); ("media_url", VStr "https://i/1");
               ("type", VStr "video"); ("like_count", VInt 0)]) as (_ & _ & _ & _ & Hok).
  - unfold entities. do 2 apply list_elem_of_further. apply list_elem_of_here.
  - apply Hok. intros f Hf. unfold Post in Hf.
    repeat (apply elem_of_cons in Hf as [->|Hf]; [vm_compute; first [done | by split]|]).
    by apply elem_of_nil in Hf.
Defined.



End Claims.

(** ** The like endpoint on every input *)

Module LikeEndpoint.
Import Py Eff Schemas Store Main Spec Samples PyFacts MFacts SeedFacts HydrationFacts RecordFacts
  LikeFacts SchemaFacts EndpointSpec.

(** X1. A path parameter of ASCII characters that [ObjectId] refuses (it
    has not 24 characters, or [bytes.fromhex] cannot read it): the like
    endpoint answers 400 with the text of [InvalidId], which quotes the
    parameter as [repr] prints it, whatever the store holds, and the world
    (store, generator, clock) is left as it was. *)
Theorem like_malformed_id (post_id : string) (w : world) (d : database) :
  db w = Some d -> ascii_text post_id = true -> ObjectId post_id = None ->
  like_post post_id w
  = (Raise (HTTPException 400
              (repr_str post_id +:+ " is not a valid ObjectId, it must be a 12-byte input or a 24-character hex string")),
     w).
Proof.
  intros Hd _ Hid. unfold like_post, try_except, handle, mbind, M_bind.
  rewrite Hd, Hid. reflexivity.
Qed.

Lemma like_malformed_id_witness :
  like_post "it's not an id" fresh
  = (Raise (HTTPException 400
              (repr_str "it's not an id" +:+ " is not a valid ObjectId, it must be a 12-byte input or a 24-character hex string")),
     fresh).
Proof.
  apply (like_malformed_id "it's not an id" fresh blank); reflexivity.
Defined.

(** The like endpoint either returns or raises a 400. *)
Lemma like_post_outcome post_id w :
  (exists r, (like_post post_id w).1 = Ok r)
  \/ (exists detail, (like_post post_id w).1 = Raise (HTTPException 400 detail)).
Proof.
  unfold like_post, try_except.
  match goal with |- context [let (_, _) := ?b in _] => destruct b as [[r|e] w'] end.
  - left. by eexists.
  - right. by eexists.
Qed.

(** X2. Whatever the path parameter and the world, the like endpoint
    answers 200 or 400: never 404, never 500. *)
Theorem like_answers_200_or_400 (post_id : string) (w : world) :
  match (serve (like_post post_id) w).1 with
  | Success _ => True
  | Failure status _ => status = 400
  end.
Proof.
  unfold serve. destruct (like_post post_id w) as [r w'] eqn:H.
  destruct (like_post_outcome post_id w) as [[r' Hr]|[detail Hr]];
    rewrite H in Hr; simpl in Hr; subst r; simpl; done.
Qed.

Lemma apply_like_ops now f f' c :
  apply_ops (like_ops now) f = Ok (f', c) ->
  (exists n, f !! "like_count" = Some (VInt n)
             /\ f' = <["updated_at" := VTime (now / 1000 * 1000)]>
                       (<["like_count" := VInt (n + 1)]> f))
  \/ (f !! "like_count" = None
      /\ f' = <["updated_at" := VTime (now / 1000 * 1000)]> (<["like_count" := VInt 1]> f)).
Proof.
  unfold like_ops, apply_ops, apply_op.
  destruct (f !! "like_count") as [[]|] eqn:Hl; try done.
  - intros [= <- _]. left. by eexists.
  - intros [= <- _]. by right.
Qed.

Lemma like_steps_refl l : Forall2 like_step l l.
Proof. induction l; constructor; [by left|done]. Qed.

Lemma update_first_like_steps oid now l l' r :
  update_first oid (like_ops now) l = Ok (l', r) -> Forall2 like_step l l'.
Proof.
  revert l' r. induction l as [|q l IH]; intros l' r; cbn [update_first].
  - intros [= <- _]. constructor.
  - destruct (decide (_id q = oid)).
    + destruct (apply_ops (like_ops now) (fields q)) as [[f' c]|] eqn:Hf; [|done].
      intros [= <- _]. constructor; [|apply like_steps_refl].
      apply apply_like_ops in Hf as [(n & Hn & ->)|[Hn ->]].
      * right. left. by exists n, now.
      * right. right. by exists (now / 1000 * 1000).
    + destruct (update_first oid (like_ops now) l) as [[l'' r'']|] eqn:Hu; [|done].
      intros [= <- _]. constructor; [by left|]. by eapply IH.
Qed.

(** What the like endpoint can do to the store: leave it, or rewrite the
    post collection by one update. *)
Lemma like_post_store post_id w d :
  db w = Some d ->
  db (like_post post_id w).2 = Some d
  \/ exists oid now l' r,
       update_first oid (like_ops now) (coll d "post") = Ok (l', r)
       /\ db (like_post post_id w).2 = Some (set_coll d "post" l').
Proof.
  intros Hd.
  unfold like_post, try_except, update_one, find, handle, _now, lift, available, put_db,
    mbind, M_bind, mret, M_ret.
  rewrite Hd. destruct (ObjectId post_id) as [oid|]; simpl; [|by left].
  rewrite Hd. destruct (outage d) eqn:Ho; simpl; [by left|].
  fold (like_ops (clk w 0%nat)).
  destruct (update_first oid (like_ops (clk w 0%nat)) (coll d "post")) as [[l' r]|] eqn:Hu;
    simpl; [|by left].
  destruct (decide (matched_count r = 0)); simpl.
  - destruct (modified_count r =? 0); simpl; [by left|]. rewrite ?Hd, ?Ho. simpl.
    left. by destruct (jsonable_encoder _).
  - right. exists oid, (clk w 0%nat), l', r. split; [done|].
    destruct (modified_count r =? 0); simpl; [done|]. rewrite ?Ho. simpl.
    by destruct (jsonable_encoder _).
Qed.

Lemma like_step_id q q' : like_step q q' -> _id q' = _id q.
Proof. intros [->|[(n & now & _ & ->)|(now & _ & ->)]]; done. Qed.

Lemma like_step_record q q' :
  like_step q q' -> is_record Post q = true -> is_record Post q' = true.
Proof.
  intros [->|[(n & now & Hn & ->)|(now & Hn & ->)]] Hr; [done| |].
  - destruct (is_record_field _ _ (optional "like_count" (TInt (Some 0)) (VInt 0)) Hr)
      as (v & Hv & _ & Hc); [unfold Post; set_solver|].
    simpl in Hv. rewrite Hn in Hv. injection Hv as <-. simpl in Hc.
    apply Z.leb_le in Hc.
    unfold is_record in *. apply andb_prop in Hr as [Hf Hd].
    apply andb_true_intro. split.
    + rewrite forallb_forall in Hf |- *. intros f Hin. specialize (Hf f Hin).
      unfold liked. cbn [fields].
      assert (fname f <> "updated_at") as Hu.
      { unfold Post in Hin. simpl in Hin. intuition (subst; done). }
      rewrite lookup_insert_ne by done.
      destruct (decide (fname f = "like_count")) as [He|Hne].
      * rewrite He, lookup_insert_eq. rewrite He, Hn in Hf.
        destruct (ftyp f) as [| | |[lo|]|]; try done. simpl in *.
        apply Z.leb_le in Hf. apply Z.leb_le. lia.
      * by rewrite lookup_insert_ne.
    + apply bool_decide_eq_true in Hd. apply bool_decide_eq_true.
      unfold liked. cbn [fields]. rewrite !dom_insert_L.
      assert ("like_count" ∈ dom (fields q)) by (apply elem_of_dom; by eexists).
      set_solver.
  - destruct (is_record_field _ _ (optional "like_count" (TInt (Some 0)) (VInt 0)) Hr)
      as (v & Hv & _); [unfold Post; set_solver|].
    simpl in Hv. by rewrite Hn in Hv.
Qed.

Lemma like_steps_ids l l' : Forall2 like_step l l' -> _id <$> l' = _id <$> l.
Proof.
  induction 1 as [|q q' l l' Hq _ IH]; [done|].
  rewrite !fmap_cons, IH, (like_step_id q q') by done. done.
Qed.

(** X3. One call of the like endpoint, whatever its argument and whether
    it succeeds or fails, keeps the handle, the identifiers of every
    collection in their order, every collection but the posts as it is,
    and the identifier supply; posts that were Post records still are. *)
Theorem like_keeps_store_shape (post_id : string) (w : world) (d : database) :
  db w = Some d ->
  exists d',
    db (like_post post_id w).2 = Some d'
    /\ next_oid d' = next_oid d
    /\ outage d' = outage d
    /\ (forall name, _id <$> coll d' name = _id <$> coll d name)
    /\ (forall name, name <> "post" -> coll d' name = coll d name)
    /\ (Forall (fun p => is_record Post p = true) (coll d "post") ->
        Forall (fun p => is_record Post p = true) (coll d' "post")).
Proof.
  intros Hd. destruct (like_post_store post_id w d Hd) as [H|(oid & now & l' & r & Hu & H)].
  - exists d. by rewrite H.
  - exists (set_coll d "post" l'). rewrite H.
    apply update_first_like_steps in Hu.
    split; [done|]. split; [done|]. split; [done|]. split; [|split].
    + intros name. destruct (decide (name = "post")) as [->|Hne].
      * rewrite coll_set_coll_eq. by apply like_steps_ids.
      * by rewrite coll_set_coll_ne.
    + intros name Hne. by rewrite coll_set_coll_ne.
    + rewrite coll_set_coll_eq. intros Hall.
      apply Forall_forall. intros q' Hq'.
      apply list_elem_of_lookup in Hq' as [i Hi].
      destruct (Forall2_lookup_r _ _ _ _ _ Hu Hi) as (q & Hq & Hstep).
      apply (like_step_record q q' Hstep).
      apply (proj1 (Forall_forall _ _) Hall q). by eapply list_elem_of_lookup_2.
Qed.

Lemma like_keeps_store_shape_witness :
  exists d',
    db (like_post first_post_id lively).2 = Some d'
    /\ next_oid d' = next_oid (store_of lively)
    /\ outage d' = outage (store_of lively)
    /\ (forall name, _id <$> coll d' name = _id <$> coll (store_of lively) name)
    /\ (forall name, name <> "post" -> coll d' name = coll (store_of lively) name)
    /\ (Forall (fun p => is_record Post p = true) (coll (store_of lively) "post") ->
        Forall (fun p => is_record Post p = true) (coll d' "post")).
Proof.
  apply (like_keeps_store_shape first_post_id lively (store_of lively)).
  vm_compute. reflexivity.
Defined.



End LikeEndpoint.

(** ** The read endpoints *)

Module ReadEndpoints.
Import Py Eff Schemas Store Main Spec Samples PyFacts MFacts SeedFacts HydrationFacts RecordFacts
  LikeFacts SchemaFacts Claims EndpointSpec.

Lemma find_outcome {A} name (shape : list doc -> A) w :
  (find name shape w).2 = w
  /\ ((exists a, (find name shape w).1 = Ok a)
      \/ (exists cls msg, (find name shape w).1 = Raise (PyError cls msg))).
Proof.
  unfold find, mbind, M_bind, handle, lift, available, TypeError_None.
  destruct (db w) as [d|]; [destruct (outage d)|]; simpl; eauto.
Qed.

Lemma hydrate_outcome cm p w :
  (hydrate cm p w).2 = w
  /\ ((exists a, (hydrate cm p w).1 = Ok a)
      \/ (exists cls msg, (hydrate cm p w).1 = Raise (PyError cls msg))).
Proof.
  unfold hydrate, dict_get, mbind, M_bind, mret, M_ret, raise.
  destruct (get p "author_id") as [[]|]; simpl; eauto.
  all: destruct (cm !! s); simpl; eauto.
Qed.

Lemma bind_outcome {A B} (m : M A) (f : A -> M B) w :
  (m w).2 = w ->
  ((exists a, (m w).1 = Ok a) \/ (exists cls msg, (m w).1 = Raise (PyError cls msg))) ->
  (forall a, (f a w).2 = w
     /\ ((exists b, (f a w).1 = Ok b) \/ (exists cls msg, (f a w).1 = Raise (PyError cls msg)))) ->
  ((m ≫= f) w).2 = w
  /\ ((exists b, ((m ≫= f) w).1 = Ok b)
      \/ (exists cls msg, ((m ≫= f) w).1 = Raise (PyError cls msg))).
Proof.
  intros Hw Hr Hf. unfold mbind, M_bind.
  destruct (m w) as [[a|e] w1]; simpl in *; subst w1.
  - apply Hf.
  - split; [done|]. right. destruct Hr as [[? [=]]|(cls & msg & [= ->])]. eauto.
Qed.

(** The encoder raises nothing but its own [ValueError]. *)
Lemma encoder_outcome (obj : value) w :
  (lift (jsonable_encoder obj) w).2 = w
  /\ ((exists a, (lift (jsonable_encoder obj) w).1 = Ok a)
      \/ (exists cls msg, (lift (jsonable_encoder obj) w).1 = Raise (PyError cls msg))).
Proof.
  unfold lift, jsonable_encoder, not_encodable. split; [done|].
  destruct (encode obj); simpl; eauto.
Qed.

Lemma map_M_hydrate_outcome cm ps w :
  (map_M (hydrate cm) ps w).2 = w
  /\ ((exists a, (map_M (hydrate cm) ps w).1 = Ok a)
      \/ (exists cls msg, (map_M (hydrate cm) ps w).1 = Raise (PyError cls msg))).
Proof.
  induction ps as [|p ps IH]; cbn [map_M].
  - split; [done|]. left. by eexists.
  - apply bind_outcome; [apply hydrate_outcome..|]. intros y.
    apply bind_outcome; [apply IH..|]. intros ys.
    split; [done|]. left. by eexists.
Qed.

(** The unguarded listings leave the world alone and raise nothing but
    plain Python exceptions. *)
Lemma get_stories_outcome limit_ w :
  (get_stories limit_ w).2 = w
  /\ ((exists a, (get_stories limit_ w).1 = Ok a)
      \/ (exists cls msg, (get_stories limit_ w).1 = Raise (PyError cls msg))).
Proof.
  unfold get_stories.
  apply bind_outcome; [apply find_outcome..|]. intros stories.
  apply bind_outcome; [apply find_outcome..|]. intros chars.
  apply bind_outcome; [apply map_M_hydrate_outcome..|]. intros items.
  apply encoder_outcome.
Qed.

Lemma get_characters_outcome limit_ w :
  (get_characters limit_ w).2 = w
  /\ ((exists a, (get_characters limit_ w).1 = Ok a)
      \/ (exists cls msg, (get_characters limit_ w).1 = Raise (PyError cls msg))).
Proof.
  unfold get_characters.
  apply bind_outcome; [apply find_outcome..|]. intros chars.
  apply encoder_outcome.
Qed.

Lemma get_feed_outcome limit_ w :
  (get_feed limit_ w).2 = w
  /\ ((exists a, (get_feed limit_ w).1 = Ok a)
      \/ (exists detail, (get_feed limit_ w).1 = Raise (HTTPException 500 detail))).
Proof.
  unfold get_feed, try_except.
  match goal with |- context [let (_, _) := ?b w in _] =>
    assert ((b w).2 = w
            /\ ((exists a, (b w).1 = Ok a)
                \/ (exists cls msg, (b w).1 = Raise (PyError cls msg)))) as [Hw Hr];
    [|destruct (b w) as [[a|e] w1]] end.
  - apply bind_outcome; [apply find_outcome..|]. intros posts.
    apply bind_outcome; [apply find_outcome..|]. intros characters.
    apply bind_outcome; [apply find_outcome..|]. intros chars.
    apply bind_outcome; [apply map_M_hydrate_outcome..|]. intros items.
    apply encoder_outcome.
  - simpl in *. split; [done|]. left. by eexists.
  - simpl in *. subst w1. split; [done|]. right. eauto.
Qed.

(** How a read endpoint ends: the world is the one it was given, and it
    returns, or raises a 500 (the feed), or lets a plain exception leave
    (the other two). *)
Lemma reader_outcome r limit_ w :
  (reader_handler r limit_ w).2 = w
  /\ ((exists a, (reader_handler r limit_ w).1 = Ok a)
      \/ (r = ReadFeed
          /\ exists detail, (reader_handler r limit_ w).1 = Raise (HTTPException 500 detail))
      \/ (r <> ReadFeed
          /\ exists cls msg, (reader_handler r limit_ w).1 = Raise (PyError cls msg))).
Proof.
  destruct r; simpl.
  - destruct (get_feed_outcome limit_ w) as [? [?|?]]; eauto.
  - destruct (get_stories_outcome limit_ w) as [? [?|?]]; eauto 6.
  - destruct (get_characters_outcome limit_ w) as [? [?|?]]; eauto 6.
Qed.

(** X5. The three read endpoints never change anything: whatever the
    limit and whether they succeed or fail, the world they leave (store,
    generator, clock) is the world they were given. *)
Theorem readers_keep_world (r : reader) (limit_ : Z) (w : world) :
  (reader_handler r limit_ w).2 = w.
Proof.
  destruct r; simpl.
  - apply get_feed_outcome.
  - apply get_stories_outcome.
  - apply get_characters_outcome.
Qed.

(** X6. A read endpoint answers 200 or 500, never a client error. *)
Theorem readers_answer_200_or_500 (r : reader) (limit_ : Z) (w : world) :
  match (serve (reader_handler r limit_) w).1 with
  | Success _ => True
  | Failure status _ => status = 500
  end.
Proof.
  unfold serve.
  assert ((exists a, (reader_handler r limit_ w).1 = Ok a)
          \/ (exists detail, (reader_handler r limit_ w).1 = Raise (HTTPException 500 detail))
          \/ (exists cls msg, (reader_handler r limit_ w).1 = Raise (PyError cls msg))) as H.
  { destruct r; simpl.
    - destruct (get_feed_outcome limit_ w) as [_ [?|?]]; eauto.
    - destruct (get_stories_outcome limit_ w) as [_ [?|?]]; eauto.
    - destruct (get_characters_outcome limit_ w) as [_ [?|?]]; eauto. }
  destruct (reader_handler r limit_ w) as [res w'].
  destruct H as [[a H]|[[detail H]|(cls & msg & H)]]; simpl in H; subst res; done.
Qed.

(** What the body of a listing gives once the store has answered. *)
Lemma hydrate_then_encode cm (ps : list doc) w v w' :
  (items ← map_M (hydrate cm) ps; lift (jsonable_encoder (VList (as_dict <$> items)))) w
  = (Ok v, w') ->
  ps = [] /\ v = VList [].
Proof.
  unfold mbind, M_bind.
  destruct (map_M (hydrate cm) ps w) as [[items|e] w1] eqn:Hm; [|done].
  apply map_M_hydrate_inv in Hm as [-> ->].
  destruct ps as [|p ps]; [by intros [= <- _]|].
  unfold lift. by rewrite jsonable_encoder_docs.
Qed.

Lemma reader_returns_inv r limit_ w v w' d :
  db w = Some d -> outage d = None ->
  reader_handler r limit_ w = (Ok v, w') ->
  coll d (reader_coll r) = [] /\ v = VList [].
Proof.
  intros Hd Ho. destruct r; simpl; unfold get_feed, get_stories, get_characters, try_except.
  - unfold mbind at 1, M_bind at 1. rewrite (find_run _ _ d) by done.
    unfold mbind at 1, M_bind at 1. rewrite (find_run _ _ d) by done.
    unfold mbind at 1, M_bind at 1. rewrite (find_run _ _ d) by done.
    match goal with |- context [let (_, _) := ?b in _] =>
      destruct b as [[v1|e] w1] eqn:Hb; [|done] end.
    intros [= <- <-]. apply hydrate_then_encode in Hb as [Hnil ->].
    split; [|done]. by apply (fetched_nil Feed limit_ d).
  - unfold mbind at 1, M_bind at 1. rewrite (find_run _ _ d) by done.
    unfold mbind at 1, M_bind at 1. rewrite (find_run _ _ d) by done.
    intros Hb. apply hydrate_then_encode in Hb as [Hnil ->].
    split; [|done]. by apply (fetched_nil Stories limit_ d).
  - unfold mbind at 1, M_bind at 1. rewrite (find_run _ _ d) by done.
    destruct (limit limit_ (coll d "character")) as [|c cs] eqn:Hl.
    + intros [= <- _]. split; [|done]. by apply limit_nil in Hl.
    + unfold lift. by rewrite (jsonable_encoder_docs (c :: cs)).
Qed.

Lemma reader_returns_nil r limit_ w d :
  db w = Some d -> outage d = None -> coll d (reader_coll r) = [] ->
  reader_handler r limit_ w = (Ok (VList []), w).
Proof.
  intros Hd Ho Hnil. destruct r; cbn [reader_handler reader_coll] in *.
  - change get_feed with (listing_handler Feed).
    rewrite (listing_run Feed limit_ d); [|done|done|].
    + by rewrite (proj2 (fetched_nil Feed limit_ d) Hnil).
    + cbn [listing_coll]. by rewrite Hnil.
  - change get_stories with (listing_handler Stories).
    rewrite (listing_run Stories limit_ d); [|done|done|].
    + by rewrite (proj2 (fetched_nil Stories limit_ d) Hnil).
    + cbn [listing_coll]. by rewrite Hnil.
  - unfold get_characters. unfold mbind at 1, M_bind at 1.
    rewrite (find_run _ _ d) by done. rewrite Hnil.
    by rewrite (proj2 (limit_nil limit_ []) eq_refl).
Qed.

(** X7. A read endpoint returns only the empty list.  It returns exactly
    when the handle is set, the store answers and the collection it reads
    holds no document, and then it returns the empty list and leaves the
    world as it was; as soon as the collection holds a document the
    endpoint fails, because the encoder has no rule for the ObjectId of a
    fetched document.  The limit is one the driver can send. *)
Theorem readers_return_only_the_empty_list (r : reader) (limit_ : Z) (w w' : world)
    (v : value) :
  Z.abs limit_ < 2 ^ 31 ->
  (reader_handler r limit_ w = (Ok v, w')
   <-> v = VList [] /\ w' = w
       /\ exists d, db w = Some d /\ outage d = None /\ coll d (reader_coll r) = []).
Proof.
  intros _. split.
  - intros Hrun.
    assert (w' = w) as ->.
    { destruct (reader_outcome r limit_ w) as [Hw _]. by rewrite Hrun in Hw. }
    destruct (db w) as [d|] eqn:Hd.
    2: { exfalso. revert Hrun. destruct r; simpl;
           unfold get_feed, get_stories, get_characters, try_except, find, handle,
             mbind, M_bind; by rewrite Hd. }
    destruct (outage d) as [text|] eqn:Ho.
    { exfalso. revert Hrun. destruct r; simpl;
        unfold get_feed, get_stories, get_characters, try_except, find, handle, lift,
          available, mbind, M_bind; by rewrite Hd, Ho. }
    destruct (reader_returns_inv r limit_ w v w d Hd Ho Hrun) as [Hnil ->].
    split; [done|]. split; [done|]. by exists d.
  - intros (-> & -> & d & Hd & Ho & Hnil). by apply (reader_returns_nil r limit_ w d).
Qed.

Lemma readers_return_only_the_empty_list_witness :
  reader_handler ReadFeed 25 fresh = (Ok (VList []), fresh)
  <-> VList [] = VList [] /\ fresh = fresh
      /\ exists d, db fresh = Some d /\ outage d = None /\ coll d (reader_coll ReadFeed) = [].
Proof.
  apply (readers_return_only_the_empty_list ReadFeed 25 fresh fresh (VList [])).
  reflexivity.
Defined.

(** X24. With the store reachable and a document in the collection it
    reads, a read endpoint answers 500 and leaves the world as it was: the
    stories and the characters with the bare response, since the error
    leaves the handler, the feed with the text of the error, which is the
    text of the encoder's ValueError when every author_id can be looked
    up.  The limit is one the driver can send. *)
Theorem readers_fail_on_documents (r : reader) (limit_ : Z) (w : world) (d : database) :
  db w = Some d -> outage d = None -> Z.abs limit_ < 2 ^ 31 ->
  coll d (reader_coll r) <> [] ->
  exists detail,
    serve (reader_handler r limit_) w = (Failure 500 detail, w)
    /\ (r <> ReadFeed -> detail = "Internal Server Error")
    /\ (r = ReadFeed -> Forall hashable_author (coll d "post") ->
        detail = exc_str not_encodable).
Proof.
  intros Hd Ho _ Hne.
  destruct (reader_outcome r limit_ w) as [Hw Hs].
  unfold serve.
  destruct (reader_handler r limit_ w) as [res w1] eqn:Hrun; simpl in *; subst w1.
  destruct Hs as [[v ->]|[(-> & detail & ->)|(Hr & cls & msg & ->)]].
  - apply (reader_returns_inv r limit_ w v w d Hd Ho) in Hrun as [Hnil _]. done.
  - exists detail. split; [done|]. split; [done|]. intros _ Hh.
    cbn [reader_handler] in Hrun. change get_feed with (listing_handler Feed) in Hrun.
    rewrite (listing_fails Feed limit_ d w Hd Ho Hne Hh) in Hrun. by injection Hrun as <-.
  - exists "Internal Server Error". done.
Qed.

Lemma readers_fail_on_documents_witness :
  exists detail,
    serve (reader_handler ReadCharacters 50) lively = (Failure 500 detail, lively)
    /\ (ReadCharacters <> ReadFeed -> detail = "Internal Server Error")
    /\ (ReadCharacters = ReadFeed -> Forall hashable_author (coll (store_of lively) "post") ->
        detail = exc_str not_encodable).
Proof.
  apply (readers_fail_on_documents ReadCharacters 50 lively (store_of lively)).
  - vm_compute. reflexivity.
  - vm_compute. reflexivity.
  - vm_compute. reflexivity.
  - vm_compute. discriminate.
Defined.

(** X25. The hydration loop of the feed and of the stories.  Run on the
    fetched items [ps] with the stored characters [cs] (identifiers
    distinct, every author_id a value that can be a dictionary key), it
    returns as many items in the same order, each with its identifier and
    every field other than author as fetched; an item whose author_id is
    the text of a character's id gets an author object made of that
    character's stored username, name and avatar_url (None for a missing
    one), and an item whose author_id matches no character keeps whatever
    it had under author, which for a stored Post or Story is nothing. *)
Theorem hydration_attaches_authors (cs ps : list doc) (w : world) :
  NoDup (_id <$> cs) -> Forall hashable_author ps ->
  exists ps',
    map_M (hydrate (char_map_of cs)) ps w = (Ok ps', w)
    /\ length ps' = length ps
    /\ forall i p p', ps !! i = Some p -> ps' !! i = Some p' ->
         _id p' = _id p
         /\ (forall key, key <> "author" -> fields p' !! key = fields p !! key)
         /\ (forall c, c ∈ cs ->
               fields p !! "author_id" = Some (VStr (oid_str (_id c))) ->
               fields p' !! "author"
               = Some (VDict [ ("username", default VNone (fields c !! "username"));
                               ("name", default VNone (fields c !! "name"));
                               ("avatar_url", default VNone (fields c !! "avatar_url")) ])
               /\ forall u, fields c !! "username" = Some (VStr u) ->
                    author_field p' "username" = Some (VStr u))
         /\ ((forall c, c ∈ cs ->
                 fields p !! "author_id" <> Some (VStr (oid_str (_id c)))) ->
             fields p' !! "author" = fields p !! "author").
Proof.
  intros Hnd Hh. exists (hydrated (char_map_of cs) <$> ps).
  split; [by apply map_M_hydrate_ok|]. split; [by rewrite length_fmap|].
  intros i p p' Hp Hp'. rewrite list_lookup_fmap, Hp in Hp'. injection Hp' as <-.
  unfold hydrated, get. rewrite decide_False by done.
  destruct (fields p !! "author_id") as [a|] eqn:Ha.
  2: { split; [done|]. split; [done|]. split; [by intros c _ [=]|done]. }
  destruct a as [| |s| | | |];
    try (split; [done|]; split; [done|]; split; [by intros c _ [=]|done]).
  destruct (char_map_of cs !! s) as [c0|] eqn:Hc0.
  - apply char_map_of_Some in Hc0 as Hc0'. destruct Hc0' as [Hin ->].
    split; [done|]. split; [|split].
    + intros key Hk. cbn [setitem fields]. by rewrite lookup_insert_ne.
    + intros c Hc [= Heq]. apply oid_str_inj in Heq.
      assert (c0 = c) as ->.
      { pose proof (char_map_of_lookup cs c Hnd Hc) as Hl.
        rewrite <- Heq, Hc0 in Hl. by injection Hl. }
      cbn [setitem fields]. rewrite lookup_insert_eq. unfold author_of, get.
      rewrite !decide_False by done. split; [done|].
      intros u Hu. unfold author_field. cbn [setitem fields]. rewrite lookup_insert_eq.
      cbn. by rewrite Hu.
    + intros Hno. by destruct (Hno c0 Hin).
  - split; [done|]. split; [done|]. split; [|done].
    intros c Hc [= ->]. by rewrite (char_map_of_lookup cs c Hnd Hc) in Hc0.
Qed.

Lemma hydration_attaches_authors_witness :
  exists ps',
    map_M (hydrate (char_map_of (coll (store_of lively) "character")))
      (coll (store_of lively) "post") lively = (Ok ps', lively)
    /\ length ps' = length (coll (store_of lively) "post")
    /\ forall i p p', coll (store_of lively) "post" !! i = Some p -> ps' !! i = Some p' ->
         _id p' = _id p
         /\ (forall key, key <> "author" -> fields p' !! key = fields p !! key)
         /\ (forall c, c ∈ coll (store_of lively) "character" ->
               fields p !! "author_id" = Some (VStr (oid_str (_id c))) ->
               fields p' !! "author"
               = Some (VDict [ ("username", default VNone (fields c !! "username"));
                               ("name", default VNone (fields c !! "name"));
                               ("avatar_url", default VNone (fields c !! "avatar_url")) ])
               /\ forall u, fields c !! "username" = Some (VStr u) ->
                    author_field p' "username" = Some (VStr u))
         /\ ((forall c, c ∈ coll (store_of lively) "character" ->
                 fields p !! "author_id" <> Some (VStr (oid_str (_id c)))) ->
             fields p' !! "author" = fields p !! "author").
Proof.
  apply (hydration_attaches_authors (coll (store_of lively) "character")
           (coll (store_of lively) "post") lively).
  - apply (bool_decide_unpack _). vm_compute. exact I.
  - vm_compute. repeat constructor.
Defined.
End ReadEndpoints.

(** ** Construction of records *)

Module RecordConstruction.
Import Py Eff Schemas Store Main Spec Samples PyFacts MFacts SeedFacts HydrationFacts RecordFacts
  LikeFacts SchemaFacts Claims EndpointSpec RecordSpec.

Lemma validate_field_inv f kwargs v :
  validate_field f (assoc (fname f) kwargs) = Ok v ->
  supplied_ok f kwargs /\ (fname f, v) = filled kwargs f.
Proof.
  unfold validate_field, supplied_ok, filled, ValidationError.
  destruct (assoc (fname f) kwargs) as [a|].
  - destruct (has_type (ftyp f) a); simpl; [|done].
    destruct (constraint_ok (ftyp f) a); simpl; [|done]. by intros [= <-].
  - destruct (fdefault f); [|done]. by intros [= <-].
Qed.

Lemma construct_filled (m : model) (kwargs data : list (string * value)) :
  construct m kwargs = Ok data
  <-> (forall f, f ∈ m -> supplied_ok f kwargs) /\ data = filled kwargs <$> m.
Proof.
  revert data. induction m as [|f m IH]; intros data; simpl.
  - split.
    + intros [= <-]. split; [|done]. by intros f ?%elem_of_nil.
    + by intros [_ ->].
  - split.
    + destruct (validate_field f _) as [v|] eqn:Hv; [|done].
      apply validate_field_inv in Hv as [Hok Hf].
      destruct (construct m kwargs) as [rest|] eqn:Hm; [|done].
      intros [= <-]. destruct (proj1 (IH rest) eq_refl) as [Hall ->].
      split; [|by rewrite Hf]. intros g [->|Hg]%elem_of_cons; auto.
    + intros [Hall ->].
      destruct (validate_field_ok f kwargs) as [v Hv]; [apply Hall; left|].
      rewrite Hv. apply validate_field_inv in Hv as [_ Hf].
      rewrite (proj2 (IH (filled kwargs <$> m))); [by rewrite Hf|].
      split; [|done]. intros g Hg. apply Hall. by right.
Qed.



Lemma assoc_filled kwargs (m : model) f :
  NoDup (fname <$> m) -> f ∈ m ->
  assoc (fname f) (filled kwargs <$> m) = Some (filled kwargs f).2.
Proof.
  induction m as [|g m IH]; intros Hnd Hf; [by apply elem_of_nil in Hf|].
  rewrite fmap_cons in Hnd. apply NoDup_cons in Hnd as [Hg Hnd].
  simpl. destruct (String.eqb_spec (fname f) (fname g)) as [He|Hne].
  - apply elem_of_cons in Hf as [->|Hf]; [done|].
    destruct Hg. rewrite <- He. apply list_elem_of_fmap. eauto.
  - apply elem_of_cons in Hf as [->|Hf]; [done|]. by apply IH.
Qed.

Lemma assoc_filled_None kwargs (m : model) k :
  k ∉ fname <$> m -> assoc k (filled kwargs <$> m) = None.
Proof.
  induction m as [|g m IH]; intros Hk; [done|]. simpl.
  rewrite fmap_cons in Hk. apply not_elem_of_cons in Hk as [Hne Hk].
  destruct (String.eqb_spec k (fname g)); [done|]. by apply IH.
Qed.

Lemma filled_valid kwargs (m : model) f :
  model_ok m = true -> f ∈ m -> supplied_ok f kwargs ->
  has_type (ftyp f) (filled kwargs f).2 = true
  /\ constraint_ok (ftyp f) (filled kwargs f).2 = true.
Proof.
  unfold model_ok, supplied_ok, filled. intros [_ Hd]%andb_prop Hf. simpl.
  rewrite forallb_forall in Hd. apply list_elem_of_In, Hd in Hf.
  destruct (assoc (fname f) kwargs) as [a|]; simpl; [done|].
  destruct (fdefault f) as [v|]; [|done]. intros _. simpl. by apply andb_prop in Hf.
Qed.

(** X11. Whatever the models accept is valid: in a record constructed for
    any of the nine entities, every declared field is present with a value
    of its type, inside its literal set and not below its declared
    minimum (defaults included). *)
Theorem constructed_records_are_valid (name : string) (m : model)
    (kwargs data : list (string * value)) :
  (name, m) ∈ entities ->
  construct m kwargs = Ok data ->
  forall f, f ∈ m ->
    exists v, assoc (fname f) data = Some v
              /\ has_type (ftyp f) v = true /\ constraint_ok (ftyp f) v = true.
Proof.
  intros Hent Hc f Hf.
  assert (model_ok m = true) as Hok.
  { unfold entities in Hent.
    repeat (apply elem_of_cons in Hent as [Hent|Hent];
            [injection Hent as -> ->; vm_compute; reflexivity|]).
    by apply elem_of_nil in Hent. }
  apply construct_filled in Hc as [Hall ->].
  exists (filled kwargs f).2. split.
  - apply assoc_filled; [|done]. unfold model_ok in Hok.
    apply andb_prop in Hok as [Hnd%bool_decide_eq_true _].
    apply NoDup_cons in Hnd as [_ Hnd]. by apply NoDup_cons in Hnd as [_ Hnd].
  - exact (filled_valid kwargs m f Hok Hf (Hall f Hf)).
Qed.

Lemma constructed_records_are_valid_witness :
  Forall (fun f =>
    exists v, assoc (fname f)
                [ ("author_type", VStr "character"); ("author_id", VStr "c1");
                  ("media_url", VStr "https://s/1"); ("text_overlay", VNone);
                  ("expires_at", VNone) ] = Some v
              /\ has_type (ftyp f) v = true /\ constraint_ok (ftyp f) v = true) Story.
Proof.
  apply Forall_forall.
  apply (constructed_records_are_valid "Story" Story
           [("author_id", VStr "c1"); ("media_url", VStr "https://s/1")]).
  - unfold entities. do 3 apply list_elem_of_further. apply list_elem_of_here.
  - reflexivity.
Defined.

Lemma to_bson_strs (tags : list string) : map to_bson (VStr <$> tags) = VStr <$> tags.
Proof. induction tags as [|t tags IH]; [done|]. cbn. f_equal. apply IH. Qed.

(** The store keeps a value that a field accepts as it is. *)
Lemma to_bson_valid t v :
  has_type t v = true -> constraint_ok t v = true -> to_bson v = v.
Proof.
  destruct t, v; simpl; try done. intros Hl _. f_equal.
  induction l as [|x l IH]; [done|]. simpl in *.
  apply andb_prop in Hl as [Hx Hl]. rewrite IH by done. by destruct x.
Qed.

(** A record that was constructed is stored as a record of its model. *)
Lemma is_record_created (m : model) kwargs data oid t1 t2 :
  model_ok m = true -> construct m kwargs = Ok data ->
  is_record m (Doc oid (stamped data t1 t2)) = true.
Proof.
  intros Hok Hc. pose proof Hok as [Hnd%bool_decide_eq_true _]%andb_prop.
  apply construct_filled in Hc as [Hall ->].
  unfold is_record. cbn [fields]. apply andb_true_intro. split.
  - apply forallb_forall. intros f Hf%list_elem_of_In.
    assert (fname f ∈ fname <$> m) as Hin by (apply list_elem_of_fmap; eauto).
    unfold stamped. rewrite stored_lookup.
    + rewrite assoc_filled;
        [|apply NoDup_cons in Hnd as [_ Hnd]; by apply NoDup_cons in Hnd as [_ Hnd]|done].
      destruct (filled_valid kwargs m f Hok Hf (Hall f Hf)) as [Ht Hk].
      cbn [fmap option_fmap option_map]. rewrite (to_bson_valid _ _ Ht Hk), Ht, Hk. done.
    + intros He. apply NoDup_cons in Hnd as [Hnd _]. apply Hnd. rewrite <- He. by right.
    + intros He. apply NoDup_cons in Hnd as [_ Hnd]. apply NoDup_cons in Hnd as [Hnd _].
      apply Hnd. by rewrite <- He.
  - apply bool_decide_eq_true. intros k Hk. apply elem_of_dom in Hk as [v Hv].
    apply elem_of_list_to_set. unfold stamped in Hv.
    destruct (decide (k = "updated_at")) as [->|H1]; [set_solver|].
    destruct (decide (k = "created_at")) as [->|H2]; [set_solver|].
    rewrite stored_lookup in Hv by done.
    destruct (decide (k ∈ fname <$> m)); [set_solver|].
    by rewrite assoc_filled_None in Hv.
Qed.
End RecordConstruction.

(** ** What the seeder writes *)

Module SeederFacts.
Import Py Eff Schemas Store Main Spec Samples PyFacts MFacts SeedFacts HydrationFacts RecordFacts
  LikeFacts SchemaFacts Claims EndpointSpec RecordSpec SeederSpec RecordConstruction.

Lemma wp_draw_distinct {A} (k : nat) (pool : list A) (Q : list A -> world -> Prop) w :
  (k <= length pool)%nat -> NoDup pool ->
  (forall xs w', length xs = k -> NoDup xs -> xs ⊆ pool -> db w' = db w -> Q xs w') ->
  wp (draw k pool) Q w.
Proof.
  revert pool Q w. induction k as [|k IH]; intros pool Q w Hk Hnd H; simpl.
  - apply wp_ret, H; [done|constructor|by intros ? ?%elem_of_nil|done].
  - apply wp_bind, wp_random. intros r w' Hdb.
    destruct (pool !! _) as [x|] eqn:Hx.
    + pose proof (delete_Permutation _ _ _ Hx) as Hperm.
      assert (NoDup (x :: delete (N.to_nat r `mod` length pool)%nat pool)) as Hnd'
        by (by rewrite <- Hperm).
      apply NoDup_cons in Hnd' as [Hnotin Hnd'].
      apply wp_bind, IH.
      * rewrite length_delete; [lia|]. by eexists.
      * done.
      * intros xs w'' Hlen Hxs Hsub Hdb'. apply wp_ret, H.
        -- simpl. by rewrite Hlen.
        -- apply NoDup_cons. split; [|done]. intros Hin. by apply Hnotin, Hsub.
        -- intros y [->|Hy]%elem_of_cons.
           ++ by eapply list_elem_of_lookup_2.
           ++ apply Hsub in Hy. rewrite Hperm. by right.
        -- congruence.
    + apply lookup_ge_None in Hx. destruct pool; [simpl in *; lia|].
      pose proof (Nat.mod_upper_bound (N.to_nat r) (length (a :: pool))). simpl in *. lia.
Qed.

Lemma wp_sample_distinct {A} (population : list A) (k : Z) (Q : list A -> world -> Prop) w :
  0 <= k <= Z.of_nat (length population) -> NoDup population ->
  (forall xs w', Z.of_nat (length xs) = k -> NoDup xs -> xs ⊆ population ->
     db w' = db w -> Q xs w') ->
  wp (sample population k) Q w.
Proof.
  intros Hk Hnd H. unfold sample.
  destruct (Z.ltb_spec k 0); [lia|].
  destruct (Z.ltb_spec (Z.of_nat (length population)) k); [lia|].
  simpl. apply wp_draw_distinct; [lia|done|].
  intros xs w' Hlen. apply H. lia.
Qed.

Lemma interests_pool_NoDup : NoDup interests_pool.
Proof. apply (bool_decide_unpack _). vm_compute. exact I. Qed.

Lemma split_first_name first last :
  first ∈ first_names -> split_first (first +:+ " " +:+ last) = Some first.
Proof.
  unfold first_names. intros H.
  repeat (apply elem_of_cons in H as [->|H]; [reflexivity|]). by apply elem_of_nil in H.
Qed.

Lemma is_str_tags (tags : list string) : forallb is_str (VStr <$> tags) = true.
Proof.
  apply forallb_forall. intros v Hv.
  apply list_elem_of_In, list_elem_of_fmap in Hv as (s & -> & _). done.
Qed.

Ltac supplied_fields H :=
  repeat (apply elem_of_cons in H as [->|H];
          [unfold supplied_ok; simpl; rewrite ?is_str_tags;
           repeat match goal with
                  | |- context [(?a <=? ?b)] => destruct (Z.leb_spec a b); [|lia]
                  end; done|]);
  by apply elem_of_nil in H.

Lemma wp_seed_character_full n d (Q : Z -> world -> Prop) w :
  db w = Some d -> outage d = None ->
  (forall f w', seeder_character (Doc (next_oid d) (to_bson <$> f)) ->
     db w' = Some (insert_one d "character" f).1 -> Q (n + 1) w') ->
  wp (seed_character n) Q w.
Proof.
  intros Hd Ho H. unfold seed_character.
  apply wp_bind, wp_choice; [done|]. intros first w1 Hfirst H1.
  apply wp_bind, wp_choice; [done|]. intros last w2 Hlast H2.
  rewrite (split_first_name first last Hfirst).
  apply wp_bind, wp_ret.
  apply wp_bind, wp_randint; [lia|]. intros suffix w3 Hsuf H3.
  apply wp_bind, wp_choice; [done|]. intros adj w4 _ H4.
  apply wp_bind, wp_randint; [lia|]. intros img w5 _ H5.
  apply wp_bind, wp_randint; [lia|]. intros k w6 Hk H6.
  apply wp_bind, wp_sample_distinct; [simpl; lia|apply interests_pool_NoDup|].
  intros tags w7 Hlen Hnd Hsub H7.
  apply wp_bind, wp_randint; [lia|]. intros followers w8 Hfo H8.
  apply wp_bind, wp_randint; [lia|]. intros following w9 Hfg H9.
  apply wp_bind.
  match goal with |- context [construct Character ?kw] => set (kwargs := kw) end.
  assert (construct Character kwargs = Ok (filled kwargs <$> Character)) as Hc.
  { apply construct_filled. split; [|done]. intros f Hf. unfold Character in Hf.
    supplied_fields Hf. }
  eapply wp_lift; [exact Hc|].
  apply wp_bind. apply (wp_create_document _ _ d); [congruence|done|].
  intros t1 t2 w10 H10. apply wp_ret. eapply H; [|done].
  split; [by apply (is_record_created Character kwargs)|].
  unfold int_field. cbn [fields].
  split; [exists followers; by rewrite stored_lookup|].
  split; [exists following; by rewrite stored_lookup|].
  split.
  - exists tags. rewrite stored_lookup by done. split; [|split; [lia|done]].
    cbn. by rewrite to_bson_strs.
  - exists first, last, suffix. rewrite !stored_lookup by done. done.
Qed.

Lemma wp_seed_post_full c n d (Q : Z -> world -> Prop) w :
  db w = Some d -> outage d = None -> has_username c ->
  (forall f w', seeder_post [c] (Doc (next_oid d) (to_bson <$> f)) ->
     db w' = Some (insert_one d "post" f).1 -> Q (n + 1) w') ->
  wp (seed_post c n) Q w.
Proof.
  intros Hd Ho [u Hu] H. unfold seed_post.
  apply wp_bind, (wp_getitem _ _ (VStr u)); [done|].
  apply wp_bind, wp_format. cbn [py_str].
  apply wp_bind, wp_randint; [lia|]. intros m w1 _ H1.
  apply wp_bind, wp_choice; [done|]. intros phrase w2 _ H2.
  apply wp_bind, wp_choice; [done|]. intros tag w3 _ H3.
  apply wp_bind, wp_choice; [done|]. intros h1 w4 Hh1 H4.
  apply wp_bind, wp_choice; [done|]. intros h2 w5 Hh2 H5.
  apply wp_bind, wp_randint; [lia|]. intros likes w6 Hl H6.
  apply wp_bind, wp_randint; [lia|]. intros comments w7 Hc H7.
  apply wp_bind.
  match goal with |- context [construct Post ?kw] => set (kwargs := kw) end.
  assert (construct Post kwargs = Ok (filled kwargs <$> Post)) as Hcons.
  { apply construct_filled. split; [|done]. intros f Hf. unfold Post in Hf.
    supplied_fields Hf. }
  eapply wp_lift; [exact Hcons|].
  apply wp_bind. apply (wp_create_document _ _ d); [congruence|done|].
  intros t1 t2 w8 H8. apply wp_ret. eapply H; [|done].
  split; [by apply (is_record_created Post kwargs)|].
  split; [by apply authored_by_created|].
  unfold image_post, int_field. cbn [fields].
  split; [by rewrite stored_lookup|].
  split; [exists likes; by rewrite stored_lookup|].
  split; [exists comments; by rewrite stored_lookup|].
  exists h1, h2. by rewrite stored_lookup.
Qed.

Lemma wp_seed_story_full c n d (Q : Z -> world -> Prop) w :
  db w = Some d -> outage d = None -> has_username c ->
  (forall w', db w' = Some d -> Q n w') ->
  (forall f w', seeder_story [c] (Doc (next_oid d) (to_bson <$> f)) ->
     db w' = Some (insert_one d "story" f).1 -> Q (n + 1) w') ->
  wp (seed_story c n) Q w.
Proof.
  intros Hd Ho [u Hu] Hskip H. unfold seed_story.
  apply wp_bind, wp_randint; [lia|]. intros coin w1 _ H1.
  destruct (coin =? 1).
  - apply wp_bind, (wp_getitem _ _ (VStr u)); [done|].
    apply wp_bind, wp_format. cbn [py_str].
    apply wp_bind, wp_choice; [done|]. intros overlay w2 Hov H2.
    apply wp_bind, wp_now. intros now w3 H3.
    apply wp_bind.
    match goal with |- context [construct Story ?kw] => set (kwargs := kw) end.
    assert (has_type TOptStr overlay = true) as Hty.
    { set_unfold. destruct_or!; by subst. }
    assert (construct Story kwargs = Ok (filled kwargs <$> Story)) as Hcons.
    { apply construct_filled. split; [|done]. intros f Hf. unfold Story in Hf.
      repeat (apply elem_of_cons in Hf as [->|Hf];
              [unfold supplied_ok; simpl; by rewrite ?Hty|]).
      by apply elem_of_nil in Hf. }
    eapply wp_lift; [exact Hcons|].
    apply wp_bind. apply (wp_create_document _ _ d); [congruence|done|].
    intros t1 t2 w4 H4. apply wp_ret. eapply H; [|done].
    split; [by apply (is_record_created Story kwargs)|].
    split; [by apply authored_by_created|].
    exists now. cbn [fields]. by rewrite stored_lookup.
  - apply wp_ret, Hskip. congruence.
Qed.

Lemma grown_refl d : outage d = None -> grown d d [] [] [].
Proof. intros Ho. unfold grown. by rewrite !app_nil_r. Qed.

Lemma grown_character d d' nc np ns f :
  grown d d' nc np ns ->
  grown d (insert_one d' "character" f).1 (nc ++ [Doc (next_oid d') (to_bson <$> f)]) np ns.
Proof.
  intros (Ho & Hc & Hp & Hs & Hx). unfold grown.
  rewrite coll_insert_one_eq, !coll_insert_one_ne, Hc, Hp, Hs, app_assoc by done.
  repeat split; try done. intros name ???. rewrite coll_insert_one_ne by done. by apply Hx.
Qed.

Lemma grown_post d d' nc np ns f :
  grown d d' nc np ns ->
  grown d (insert_one d' "post" f).1 nc (np ++ [Doc (next_oid d') (to_bson <$> f)]) ns.
Proof.
  intros (Ho & Hc & Hp & Hs & Hx). unfold grown.
  rewrite coll_insert_one_eq, !coll_insert_one_ne, Hc, Hp, Hs, app_assoc by done.
  repeat split; try done. intros name ???. rewrite coll_insert_one_ne by done. by apply Hx.
Qed.

Lemma grown_story d d' nc np ns f :
  grown d d' nc np ns ->
  grown d (insert_one d' "story" f).1 nc np (ns ++ [Doc (next_oid d') (to_bson <$> f)]).
Proof.
  intros (Ho & Hc & Hp & Hs & Hx). unfold grown.
  rewrite coll_insert_one_eq, !coll_insert_one_ne, Hc, Hp, Hs, app_assoc by done.
  repeat split; try done. intros name ???. rewrite coll_insert_one_ne by done. by apply Hx.
Qed.

Lemma seeder_post_mono c cs p : c ∈ cs -> seeder_post [c] p -> seeder_post cs p.
Proof.
  intros Hc (? & Ha & ?). split; [done|]. split; [|done]. by eapply authored_by_mono.
Qed.

Lemma seeder_story_mono c cs p : c ∈ cs -> seeder_story [c] p -> seeder_story cs p.
Proof.
  intros Hc (? & Ha & ?). split; [done|]. split; [|done]. by eapply authored_by_mono.
Qed.

Lemma seeder_character_username c : seeder_character c -> has_username c.
Proof. intros (_ & _ & _ & _ & first & last & suffix & _ & _ & _ & _ & Hu). by eexists. Qed.

(** One round of the second loop, for the character [c] of [ts]. *)
Lemma wp_seed_content_full P c ts d0 nc np ns d (Q : Z * Z -> world -> Prop) w :
  db w = Some d -> grown d0 d nc np ns -> c ∈ ts -> has_username c ->
  (forall d' np' ns' w',
     db w' = Some d' -> grown d0 d' nc (np ++ np') (ns ++ ns') ->
     length np' = Z.to_nat P -> (length ns' <= 1)%nat ->
     Forall (seeder_post ts) np' -> Forall (seeder_story ts) ns' ->
     Q (Z.of_nat (length (np ++ np')), Z.of_nat (length (ns ++ ns'))) w') ->
  wp (seed_content P c (Z.of_nat (length np), Z.of_nat (length ns))) Q w.
Proof.
  intros Hd Hg Hc Hu H. unfold seed_content. cbn [fst snd].
  apply wp_bind.
  eapply wp_mono;
    [|apply (wp_for_range (seed_post c)
               (fun i n w' => exists d' np', db w' = Some d' /\ grown d0 d' nc (np ++ np') ns
                  /\ length np' = i /\ Forall (seeder_post ts) np'
                  /\ n = Z.of_nat (length (np ++ np'))) (Z.to_nat P) 0%nat)].
  - cbn beta. intros n w1 (d1 & np' & Hd1 & Hg1 & Hlen & Hp' & ->).
    rewrite Nat.add_0_l in Hlen. apply wp_bind.
    apply (wp_seed_story_full c (Z.of_nat (length ns)) d1); [done|apply Hg1|done| |].
    + intros w2 Hd2. apply wp_ret.
      pose proof (H d1 np' [] w2) as H'. rewrite app_nil_r in H'.
      apply H'; try done. simpl. lia.
    + intros f w2 Hs Hd2. apply wp_ret.
      replace (Z.of_nat (length ns) + 1)
        with (Z.of_nat (length (ns ++ [Doc (next_oid d1) (to_bson <$> f)]))) by (rewrite length_app; simpl; lia).
      apply (H (insert_one d1 "story" f).1 np' [Doc (next_oid d1) (to_bson <$> f)]); try done.
      * by apply grown_story.
      * apply Forall_singleton. by eapply seeder_story_mono.
  - exists d, []. rewrite app_nil_r. done.
  - intros i n w1 _ (d1 & np' & Hd1 & Hg1 & Hlen & Hp' & ->).
    apply (wp_seed_post_full c _ d1); [done|apply Hg1|done|].
    intros f w2 Hpost Hd2. exists (insert_one d1 "post" f).1, (np' ++ [Doc (next_oid d1) (to_bson <$> f)])%list.
    split; [done|]. split; [rewrite app_assoc; by apply grown_post|].
    split; [rewrite length_app; simpl; lia|]. split.
    + apply Forall_app. split; [done|]. apply Forall_singleton. by eapply seeder_post_mono.
    + rewrite !length_app. simpl. lia.
Qed.

(** The seeder below the threshold: what it appends and what it returns. *)
Lemma wp_seed_below_threshold N P d w :
  db w = Some d -> outage d = None ->
  (length (coll d "character") < 5)%nat -> Forall has_username (coll d "character") ->
  wp (ensure_bootstrap N P)
     (fun r w' => exists d' nc np ns,
        db w' = Some d' /\ grown d d' nc np ns
        /\ length nc = Z.to_nat N /\ Forall seeder_character nc
        /\ length np = (Z.to_nat P * length (limit N (coll d "character" ++ nc)))%nat
        /\ (length ns <= length (limit N (coll d "character" ++ nc)))%nat
        /\ Forall (seeder_post (limit N (coll d "character" ++ nc))) np
        /\ Forall (seeder_story (limit N (coll d "character" ++ nc))) ns
        /\ r = {| characters := Z.of_nat (Z.to_nat N);
                  posts := Z.of_nat (length np);
                  stories := Z.of_nat (length ns) |}) w.
Proof.
  intros Hd Ho Hlt Hun.
  assert (forall (m : M BootstrapResponse) Q,
            wp m Q w -> wp (fun w0 => match db w0 with
                                      | None => raise (HTTPException 500 "Database not configured") w0
                                      | Some _ => m w0
                                      end) Q w) as Hguard.
  { intros m Q. unfold wp. by rewrite Hd. }
  apply Hguard. clear Hguard.
  apply wp_bind, (wp_count_documents _ d); [done..|].
  destruct (Z.leb_spec 5 (Z.of_nat (length (coll d "character")))); [lia|].
  apply wp_bind.
  eapply wp_mono;
    [|apply (wp_for_range seed_character
               (fun i n w' => exists d' nc, db w' = Some d' /\ grown d d' nc [] []
                  /\ length nc = i /\ Forall seeder_character nc
                  /\ n = Z.of_nat i) (Z.to_nat N) 0%nat)].
  - cbn beta. intros n w1 (d1 & nc & Hd1 & Hg1 & Hlen & Hnc & ->).
    rewrite Nat.add_0_l in Hlen.
    apply wp_bind, (wp_find _ _ d1); [done|apply Hg1|].
    assert (coll d1 "character" = (coll d "character" ++ nc)%list) as -> by apply Hg1.
    set (ts := limit N (coll d "character" ++ nc)).
    assert (Forall has_username ts) as Hts.
    { apply Forall_forall. intros c Hc.
      assert (c ∈ (coll d "character" ++ nc)%list) as [Hin|Hin]%elem_of_app.
      { unfold ts, limit in Hc. destruct (N =? 0); [done|]. by apply subseteq_take in Hc. }
      - by apply (proj1 (Forall_forall _ _) Hun).
      - by apply seeder_character_username, (proj1 (Forall_forall _ _) Hnc). }
    apply wp_bind.
    eapply wp_mono;
      [|apply (wp_for_each (seed_content P)
                 (fun pre s w' => exists d' np ns, db w' = Some d' /\ grown d d' nc np ns
                    /\ length np = (Z.to_nat P * length pre)%nat
                    /\ (length ns <= length pre)%nat
                    /\ Forall (seeder_post ts) np /\ Forall (seeder_story ts) ns
                    /\ s = (Z.of_nat (length np), Z.of_nat (length ns))) ts [])].
    + cbn beta. intros s w2 (d2 & np & ns & Hd2 & Hg2 & Hnp & Hns & Fp & Fs & ->).
      apply wp_ret. rewrite app_nil_l in *. exists d2, nc, np, ns.
      rewrite Hlen. done.
    + exists d1, [], []. simpl. rewrite Nat.mul_0_r. done.
    + intros pre c s w2 Hc (d2 & np & ns & Hd2 & Hg2 & Hnp & Hns & Fp & Fs & ->).
      apply (wp_seed_content_full P c ts d nc np ns d2); [done|done|done| |].
      * by apply (proj1 (Forall_forall _ _) Hts).
      * intros d3 np' ns' w3 Hd3 Hg3 Hnp' Hns' Fp' Fs'. exists d3, (np ++ np')%list, (ns ++ ns')%list.
        rewrite !length_app. simpl.
        split; [done|]. split; [done|]. split; [lia|]. split; [lia|].
        split; [by apply Forall_app|]. split; [by apply Forall_app|]. done.
  - exists d, []. split; [done|]. split; [by apply grown_refl|]. done.
  - intros i n w1 _ (d1 & nc & Hd1 & Hg1 & Hlen & Hnc & ->).
    apply (wp_seed_character_full _ d1); [done|apply Hg1|].
    intros f w2 Hchar Hd2.
    exists (insert_one d1 "character" f).1, (nc ++ [Doc (next_oid d1) (to_bson <$> f)])%list.
    split; [done|]. split; [by apply grown_character|].
    split; [rewrite length_app; simpl; lia|]. split; [|lia].
    apply Forall_app. split; [done|]. by apply Forall_singleton.
Qed.

Lemma authored_by_subseteq cs cs' p : cs ⊆ cs' -> authored_by cs p -> authored_by cs' p.
Proof. intros Hsub [Ht (c & Hc & Hi)]. split; [done|]. exists c. split; [by apply Hsub|done]. Qed.

Lemma limit_subseteq {A} (n : Z) (l : list A) : limit n l ⊆ l.
Proof. unfold limit. destruct (n =? 0); [done|]. apply subseteq_take. Qed.

(** X12. Below the threshold (fewer than five characters, each with a
    username) the seeder returns and only appends: the stored documents
    stay as they are and in place, other collections are untouched, and
    every document written is a valid record of its model with the values
    the code draws: followers in 100..9000, following in 50..900, two to
    four distinct interests from the pool, name and username built from a
    first name, a last name and a three-digit suffix; posts of type image
    with like_count in 10..5000, comment_count in 0..200 and two hashtags
    from the pool, by a stored character; stories by a stored character,
    expiring 24 hours after a clock reading. *)
Theorem seeder_appends_valid_documents (N P : Z) (w : world) (d : database) :
  db w = Some d -> outage d = None ->
  (length (coll d "character") < 5)%nat -> Forall has_username (coll d "character") ->
  exists r w' d' nc np ns,
    ensure_bootstrap N P w = (Ok r, w') /\ db w' = Some d'
    /\ grown d d' nc np ns
    /\ Forall seeder_character nc
    /\ Forall (seeder_post (coll d' "character")) np
    /\ Forall (seeder_story (coll d' "character")) ns.
Proof.
  intros Hd Ho Hlt Hun.
  pose proof (wp_seed_below_threshold N P d w Hd Ho Hlt Hun) as H.
  apply wp_returns in H
    as (r & w' & Hrun & d' & nc & np & ns & Hd' & Hg & _ & Hnc & _ & _ & Fp & Fs & _).
  exists r, w', d', nc, np, ns. split; [done|]. split; [done|]. split; [done|]. split; [done|].
  assert (coll d' "character" = (coll d "character" ++ nc)%list) as -> by apply Hg.
  split.
  - eapply Forall_impl; [exact Fp|]. intros p (? & Ha & ?). split; [done|]. split; [|done].
    eapply authored_by_subseteq; [|exact Ha]. apply limit_subseteq.
  - eapply Forall_impl; [exact Fs|]. intros p (? & Ha & ?). split; [done|]. split; [|done].
    eapply authored_by_subseteq; [|exact Ha]. apply limit_subseteq.
Qed.

Lemma seeder_appends_valid_documents_witness :
  exists r w' d' nc np ns,
    ensure_bootstrap 3 2 fresh = (Ok r, w') /\ db w' = Some d'
    /\ grown blank d' nc np ns
    /\ Forall seeder_character nc
    /\ Forall (seeder_post (coll d' "character")) np
    /\ Forall (seeder_story (coll d' "character")) ns.
Proof.
  apply (seeder_appends_valid_documents 3 2 fresh blank).
  - reflexivity.
  - reflexivity.
  - vm_compute. lia.
  - vm_compute. constructor.
Defined.

(** X13. With character_count N >= 1 the seeder, below the threshold,
    creates N characters and then writes content for the first N stored
    characters, oldest first: the characters that were already there come
    before the new ones, so with e of them only the first N - e new
    characters get content.  It reports N characters and
    max(posts_per_character, 0) * N posts, and at most N stories. *)
Theorem reseeding_serves_oldest_characters (N P : Z) (w : world) (d : database) :
  db w = Some d -> outage d = None ->
  (length (coll d "character") < 5)%nat -> Forall has_username (coll d "character") ->
  1 <= N ->
  exists r w' d' nc np ns,
    ensure_bootstrap N P w = (Ok r, w') /\ db w' = Some d'
    /\ grown d d' nc np ns
    /\ Z.of_nat (length nc) = N
    /\ characters r = N
    /\ posts r = Z.max P 0 * N /\ posts r = Z.of_nat (length np)
    /\ stories r = Z.of_nat (length ns) /\ 0 <= stories r <= N
    /\ let served_chars :=
         (take (Z.to_nat N) (coll d "character")
            ++ take (Z.to_nat N - length (coll d "character")) nc)%list in
       Forall (authored_by served_chars) np /\ Forall (authored_by served_chars) ns.
Proof.
  intros Hd Ho Hlt Hun HN.
  pose proof (wp_seed_below_threshold N P d w Hd Ho Hlt Hun) as H.
  apply wp_returns in H
    as (r & w' & Hrun & d' & nc & np & ns & Hd' & Hg & Hlen & _ & Hnp & Hns & Fp & Fs & ->).
  assert (limit N (coll d "character" ++ nc)
          = (take (Z.to_nat N) (coll d "character")
               ++ take (Z.to_nat N - length (coll d "character")) nc)%list) as Hlim.
  { unfold limit. destruct (Z.eqb_spec N 0); [lia|]. by rewrite Z.abs_eq, take_app by lia. }
  assert (length (limit N (coll d "character" ++ nc)) = Z.to_nat N) as Hts.
  { rewrite Hlim, length_app, !length_take. lia. }
  rewrite Hts in Hnp, Hns. rewrite Hlim in Fp, Fs.
  eexists. exists w', d', nc, np, ns. split; [exact Hrun|]. split; [done|]. split; [done|].
  split; [lia|]. simpl. split; [lia|]. split; [rewrite Hnp; lia|]. split; [done|].
  split; [done|]. split; [lia|]. split.
  - eapply Forall_impl; [exact Fp|]. by intros p (_ & Ha & _).
  - eapply Forall_impl; [exact Fs|]. by intros p (_ & Ha & _).
Qed.

Lemma lively_usernames : Forall has_username (coll (store_of lively) "character").
Proof.
  vm_compute. repeat (constructor; [cbv beta; eexists; reflexivity|]). constructor.
Qed.

Lemma reseeding_serves_oldest_characters_witness :
  exists r w' d' nc np ns,
    ensure_bootstrap 1 3 lively = (Ok r, w') /\ db w' = Some d'
    /\ grown (store_of lively) d' nc np ns
    /\ Z.of_nat (length nc) = 1
    /\ characters r = 1
    /\ posts r = Z.max 3 0 * 1 /\ posts r = Z.of_nat (length np)
    /\ stories r = Z.of_nat (length ns) /\ 0 <= stories r <= 1
    /\ let served_chars :=
         (take (Z.to_nat 1) (coll (store_of lively) "character")
            ++ take (Z.to_nat 1 - length (coll (store_of lively) "character")) nc)%list in
       Forall (authored_by served_chars) np /\ Forall (authored_by served_chars) ns.
Proof.
  apply (reseeding_serves_oldest_characters 1 3 lively (store_of lively)).
  - vm_compute. reflexivity.
  - vm_compute. reflexivity.
  - vm_compute. lia.
  - exact lively_usernames.
  - lia.
Defined.

(** X14. With character_count 0 the seeder, below the threshold, creates no
    character, yet the unlimited re-query hands every stored character to
    the second loop: it writes max(posts_per_character, 0) posts for each
    of them. *)
Theorem zero_count_still_writes_content (P : Z) (w : world) (d : database) :
  db w = Some d -> outage d = None ->
  (length (coll d "character") < 5)%nat -> Forall has_username (coll d "character") ->
  exists r w' d' np ns,
    ensure_bootstrap 0 P w = (Ok r, w') /\ db w' = Some d'
    /\ grown d d' [] np ns
    /\ characters r = 0
    /\ posts r = Z.max P 0 * Z.of_nat (length (coll d "character"))
    /\ Z.of_nat (length np) = posts r
    /\ Forall (authored_by (coll d "character")) np.
Proof.
  intros Hd Ho Hlt Hun.
  pose proof (wp_seed_below_threshold 0 P d w Hd Ho Hlt Hun) as H.
  apply wp_returns in H
    as (r & w' & Hrun & d' & nc & np & ns & Hd' & Hg & Hlen & _ & Hnp & Hns & Fp & Fs & ->).
  apply nil_length_inv in Hlen. subst nc. rewrite app_nil_r in *.
  change (limit 0 (coll d "character")) with (coll d "character") in *.
  eexists. exists w', d', np, ns. split; [exact Hrun|]. split; [done|]. split; [done|].
  simpl. split; [done|]. split; [rewrite Hnp; lia|]. split; [done|].
  eapply Forall_impl; [exact Fp|]. by intros p (_ & Ha & _).
Qed.

Lemma zero_count_still_writes_content_witness :
  exists r w' d' np ns,
    ensure_bootstrap 0 2 lively = (Ok r, w') /\ db w' = Some d'
    /\ grown (store_of lively) d' [] np ns
    /\ characters r = 0
    /\ posts r = Z.max 2 0 * Z.of_nat (length (coll (store_of lively) "character"))
    /\ Z.of_nat (length np) = posts r
    /\ Forall (authored_by (coll (store_of lively) "character")) np.
Proof.
  apply (zero_count_still_writes_content 2 lively (store_of lively)).
  - vm_compute. reflexivity.
  - vm_compute. reflexivity.
  - vm_compute. lia.
  - exact lively_usernames.
Defined.
End SeederFacts.

(** ** Failure and repetition of the bootstrap *)

Module BootstrapFacts.
Import Py Eff Schemas Store Main Spec Samples PyFacts MFacts SeedFacts HydrationFacts RecordFacts
  LikeFacts SchemaFacts Claims EndpointSpec RecordSpec SeederSpec MoreSamples RecordConstruction SeederFacts.

(** X15. The seeder on a store it cannot use: without a handle it raises
    the 500 "Database not configured"; with a handle to an unreachable
    store the driver's error leaves it unhandled, so the bootstrap endpoint
    answers the bare 500.  In both cases nothing is drawn, read or written. *)
Theorem bootstrap_on_unusable_store (N P : Z) (w : world) :
  (db w = None ->
   ensure_bootstrap N P w = (Raise (HTTPException 500 "Database not configured"), w))
  /\ (forall d text, db w = Some d -> outage d = Some text ->
        ensure_bootstrap N P w = (Raise (PyError "PyMongoError" text), w)
        /\ serve (ensure_bootstrap N P) w = (Failure 500 "Internal Server Error", w)).
Proof.
  split.
  - intros Hd. unfold ensure_bootstrap. by rewrite Hd.
  - intros d text Hd Ho.
    assert (ensure_bootstrap N P w = (Raise (PyError "PyMongoError" text), w)) as H.
    { unfold ensure_bootstrap, count_documents, find, handle, lift, available, mbind, M_bind.
      by rewrite Hd, Ho. }
    split; [done|]. unfold serve. by rewrite H.
Qed.

Lemma bootstrap_on_unusable_store_witness :
  ensure_bootstrap 24 2 unset = (Raise (HTTPException 500 "Database not configured"), unset)
  /\ serve (ensure_bootstrap 24 2) down = (Failure 500 "Internal Server Error", down).
Proof.
  split.
  - apply (proj1 (bootstrap_on_unusable_store 24 2 unset)). reflexivity.
  - apply (proj2 (bootstrap_on_unusable_store 24 2 down)
             (Database ∅ 0 (Some "connection refused")) "connection refused");
      reflexivity.
Defined.

(** The first loop of the seeder on a reachable store. *)
Lemma wp_first_loop N d w :
  db w = Some d -> outage d = None ->
  wp (for_range (Z.to_nat N) seed_character 0)
     (fun n w' => exists d' nc, db w' = Some d' /\ grown d d' nc [] []
        /\ length nc = Z.to_nat N /\ Forall seeder_character nc
        /\ n = Z.of_nat (Z.to_nat N)) w.
Proof.
  intros Hd Ho.
  eapply wp_mono;
    [|apply (wp_for_range seed_character
               (fun i n w' => exists d' nc, db w' = Some d' /\ grown d d' nc [] []
                  /\ length nc = i /\ Forall seeder_character nc
                  /\ n = Z.of_nat i) (Z.to_nat N) 0%nat)].
  - cbn beta. intros n w1 H. by rewrite Nat.add_0_l in H.
  - exists d, []. split; [done|]. split; [by apply grown_refl|]. done.
  - intros i n w1 _ (d1 & nc & Hd1 & Hg1 & Hlen & Hnc & ->).
    apply (wp_seed_character_full _ d1); [done|apply Hg1|].
    intros f w2 Hchar Hd2.
    exists (insert_one d1 "character" f).1, (nc ++ [Doc (next_oid d1) (to_bson <$> f)])%list.
    split; [done|]. split; [by apply grown_character|].
    split; [rewrite length_app; simpl; lia|]. split; [|lia].
    apply Forall_app. split; [done|]. by apply Forall_singleton.
Qed.

Lemma bind_raise {A B} (m : M A) (f : A -> M B) w e w' :
  m w = (Raise e, w') -> (m ≫= f) w = (Raise e, w').
Proof. intros H. unfold mbind, M_bind. by rewrite H. Qed.

(** X16. The seeder is not atomic. When the first stored character has no
    username (and the store is below the threshold), a call with
    character_count >= 1 and posts_per_character >= 1 first writes its N
    new characters and then fails with KeyError on the old one: the
    characters stay, without any post or story. *)
Theorem failed_seeding_leaves_characters (N P : Z) (w : world) (d : database)
    (c0 : doc) (rest : list doc) :
  db w = Some d -> outage d = None ->
  coll d "character" = c0 :: rest -> (length (c0 :: rest) < 5)%nat ->
  fields c0 !! "username" = None ->
  1 <= N -> 1 <= P ->
  exists w' d' nc,
    ensure_bootstrap N P w = (Raise (PyError "KeyError" "'username'"), w')
    /\ db w' = Some d'
    /\ grown d d' nc [] []
    /\ Z.of_nat (length nc) = N
    /\ Forall seeder_character nc.
Proof.
  intros Hd Ho Hc Hlt Hu HN HP.
  pose proof (wp_first_loop N d w Hd Ho) as H1.
  apply wp_returns in H1 as (n & w1 & Hrun1 & d1 & nc & Hd1 & Hg1 & Hlen & Hnc & ->).
  exists w1, d1, nc. split; [|split; [done|split; [done|split; [lia|done]]]].
  unfold ensure_bootstrap. rewrite Hd.
  assert (count_documents "character" w = (Ok (Z.of_nat (length (coll d "character"))), w)) as Hcnt.
  { unfold count_documents. by rewrite (find_run _ _ d). }
  rewrite (bind_run _ _ _ _ _ Hcnt). rewrite Hc.
  destruct (Z.leb_spec 5 (Z.of_nat (length (c0 :: rest)))); [lia|].
  rewrite (bind_run _ _ _ _ _ Hrun1).
  rewrite (bind_run _ _ _ _ _ (find_run "character" (limit N) d1 w1 Hd1 (proj1 Hg1))).
  assert (coll d1 "character" = (coll d "character" ++ nc)%list) as -> by apply Hg1.
  rewrite Hc. unfold limit. destruct (Z.eqb_spec N 0); [lia|].
  destruct (Z.to_nat (Z.abs N)) as [|k] eqn:Hk; [lia|]. simpl take. cbn [for_each].
  apply bind_raise, bind_raise. unfold seed_content. cbn [fst].
  apply bind_raise.
  destruct (Z.to_nat P) as [|j] eqn:Hj; [lia|]. cbn [for_range].
  apply bind_raise. unfold seed_post. apply bind_raise.
  unfold getitem, get. rewrite decide_False by done. by rewrite Hu.
Qed.

Lemma failed_seeding_leaves_characters_witness :
  exists w' d' nc,
    ensure_bootstrap 2 1 nameless = (Raise (PyError "KeyError" "'username'"), w')
    /\ db w' = Some d'
    /\ grown (store_of nameless) d' nc [] []
    /\ Z.of_nat (length nc) = 2
    /\ Forall seeder_character nc.
Proof.
  apply (failed_seeding_leaves_characters 2 1 nameless (store_of nameless) (Doc 0 ∅) []).
  - reflexivity.
  - reflexivity.
  - vm_compute. reflexivity.
  - simpl. lia.
  - vm_compute. reflexivity.
  - lia.
  - lia.
Defined.

(** X17. GET /api/bootstrap twice on an empty store: the first call seeds
    24 characters and 48 posts; the second call finds the threshold
    reached, creates nothing, leaves the world as it is and returns the
    very same counts. *)
Theorem api_bootstrap_twice (w : world) (d : database) :
  db w = Some d -> outage d = None -> empty_store d ->
  exists r w1,
    api_bootstrap w = (Ok r, w1)
    /\ api_bootstrap w1 = (Ok r, w1)
    /\ characters r = 24 /\ posts r = 48 /\ 0 <= stories r <= 24.
Proof.
  intros Hd Ho He. unfold api_bootstrap.
  pose proof (wp_seed_from_empty 24 2 d w Hd Ho He) as H.
  apply wp_returns in H as (r & w1 & Hrun & d1 & ns & Hd1 & Hlen & Hs & Hns & ->).
  destruct Hs as (Ho1 & _ & Hp & Hst & _).
  eexists. exists w1. split; [exact Hrun|]. split.
  - rewrite (ensure_bootstrap_short_circuit 24 2 w1 d1 Hd1 Ho1) by (rewrite Hlen; lia).
    by rewrite Hlen, Hp, Hst.
  - simpl. lia.
Qed.

Lemma api_bootstrap_twice_witness :
  exists r w1,
    api_bootstrap fresh = (Ok r, w1)
    /\ api_bootstrap w1 = (Ok r, w1)
    /\ characters r = 24 /\ posts r = 48 /\ 0 <= stories r <= 24.
Proof.
  apply (api_bootstrap_twice fresh blank);
    [reflexivity | reflexivity | exact empty_store_blank].
Defined.

(** X18. A seed that stays under the threshold does not stop the next one:
    two calls with 1 <= N <= 4 on an empty store leave 2 * N characters
    (the second call appends N more), each call reporting N. *)
Theorem small_seed_repeats (N P : Z) (w : world) (d : database) :
  db w = Some d -> outage d = None -> empty_store d ->
  1 <= N <= 4 ->
  exists r1 w1 r2 w2 d2,
    ensure_bootstrap N P w = (Ok r1, w1)
    /\ ensure_bootstrap N P w1 = (Ok r2, w2)
    /\ db w2 = Some d2
    /\ characters r1 = N /\ characters r2 = N
    /\ Z.of_nat (length (coll d2 "character")) = 2 * N.
Proof.
  intros Hd Ho He HN.
  assert (coll d "character" = []) as Hc0 by apply He.
  pose proof (wp_seed_below_threshold N P d w Hd Ho) as H1.
  rewrite Hc0 in H1. specialize (H1 ltac:(simpl; lia) ltac:(constructor)).
  apply wp_returns in H1
    as (r1 & w1 & Hrun1 & d1 & nc & np & ns & Hd1 & Hg1 & Hlen1 & Hnc & _ & _ & _ & _ & ->).
  destruct Hg1 as (Ho1 & Hc1 & _). rewrite Hc0 in Hc1. simpl in Hc1.
  pose proof (wp_seed_below_threshold N P d1 w1 Hd1 Ho1) as H2.
  rewrite Hc1 in H2.
  specialize (H2 ltac:(lia)
                 ltac:(eapply Forall_impl; [exact Hnc|apply seeder_character_username])).
  apply wp_returns in H2
    as (r2 & w2 & Hrun2 & d2 & nc2 & np2 & ns2 & Hd2 & Hg2 & Hlen2 & _ & _ & _ & _ & _ & ->).
  destruct Hg2 as (_ & Hc2 & _). rewrite Hc1 in Hc2.
  eexists. exists w1. eexists. exists w2, d2.
  split; [exact Hrun1|]. split; [exact Hrun2|]. split; [done|]. simpl.
  split; [lia|]. split; [lia|]. rewrite Hc2, length_app. lia.
Qed.

Lemma small_seed_repeats_witness :
  exists r1 w1 r2 w2 d2,
    ensure_bootstrap 3 1 fresh = (Ok r1, w1)
    /\ ensure_bootstrap 3 1 w1 = (Ok r2, w2)
    /\ db w2 = Some d2
    /\ characters r1 = 3 /\ characters r2 = 3
    /\ Z.of_nat (length (coll d2 "character")) = 2 * 3.
Proof.
  apply (small_seed_repeats 3 1 fresh blank);
    [reflexivity | reflexivity | exact empty_store_blank | lia].
Defined.
End BootstrapFacts.

(** ** The diagnostic endpoint *)

Module DiagnosticsFacts.
Import Py Eff Schemas Store Main Spec Samples Diagnostics DiagnosticsSpec.

Lemma env_set_spec v : env_set v = true <-> exists s, v = Some s /\ s <> "".
Proof.
  destruct v as [s|]; cbn.
  - rewrite negb_true_iff, String.eqb_neq. split.
    + intros H. by exists s.
    + by intros (s' & [= <-] & H).
  - split; [done | by intros (s & H & _)].
Qed.

Lemma test_database_run getenv db_name w :
  test_database getenv db_name w
  = (Ok match db w with
        | None => report getenv "⚠️  Available but not initialized" "Not Connected" []
        | Some d =>
            match outage d with
            | None =>
                report getenv "✅ Connected & Working" "Connected"
                  (take 10 (map_to_list (colls d)).*1)
            | Some text =>
                report getenv ("⚠️  Connected but Error: " +:+ first50 text) "Connected" []
            end
        end, w).
Proof.
  unfold test_database. destruct (db w) as [d|] eqn:Hdb.
  - unfold try_except, list_collection_names, handle, mbind, M_bind, lift, available, mret, M_ret.
    rewrite Hdb. destruct (outage d) as [text|]; cbn [exc_str]; f_equal; f_equal;
      try (vm_compute; reflexivity).
  - unfold mbind, M_bind, mret, M_ret. f_equal.
Qed.

Lemma report_lookup getenv status connection names :
  let r := report getenv status connection names in
  dom r = ({["backend"; "database"; "database_url"; "database_name";
             "connection_status"; "collections"]} : gset string)
  /\ r !! "backend" = Some (VStr "✅ Running")
  /\ r !! "database" = Some (VStr status)
  /\ r !! "database_url" = Some (set_or_not (getenv "DATABASE_URL"))
  /\ r !! "database_name" = Some (set_or_not (getenv "DATABASE_NAME"))
  /\ r !! "connection_status" = Some (VStr connection)
  /\ r !! "collections" = Some (VList (VStr <$> names)).
Proof.
  cbn zeta. split; [|repeat split; vm_compute; reflexivity].
  unfold report. cbn [list_to_map foldr curry fst snd uncurry].
  rewrite !dom_insert_L, dom_empty_L. set_solver.
Qed.

(** X19. The diagnostic endpoint always answers and changes nothing, whatever
    the handle, the store and the environment are: its answer has exactly
    the six keys of the initial dictionary, [backend] as first set, never
    the initial text of [database], and at most ten collection names. *)
Theorem test_database_always_answers getenv db_name w :
  exists response,
    test_database getenv db_name w = (Ok response, w)
    /\ dom response
       = ({["backend"; "database"; "database_url"; "database_name";
            "connection_status"; "collections"]} : gset string)
    /\ response !! "backend" = Some (VStr "✅ Running")
    /\ response !! "database" <> Some (VStr "❌ Not Available")
    /\ exists names,
         response !! "collections" = Some (VList (VStr <$> names))
         /\ (length names <= 10)%nat.
Proof.
  rewrite test_database_run. eexists. split; [reflexivity|].
  destruct (db w) as [d|]; [destruct (outage d) as [text|]|].
  all: match goal with
       | |- context [report ?g ?s ?c ?n] =>
           destruct (report_lookup g s c n) as (Hd & Hb & Hs & _ & _ & _ & Hc)
       end.
  all: rewrite Hd, Hb, Hs, Hc; split; [reflexivity|]; split; [reflexivity|].
  all: split; [intros [= H]; done|].
  all: eexists; split; [reflexivity|].
  all: first [rewrite length_take; apply Nat.le_min_l | cbn [length]; lia].
Qed.

(** X20. The name of the handle and the first setting of [database_url] never
    reach the answer: both fields tell whether the environment variable of
    that name is set to a non-empty text, whatever the handle is. *)
Theorem test_database_env_fields getenv db_name w (var key : string) :
  (var, key) ∈ [("DATABASE_URL", "database_url"); ("DATABASE_NAME", "database_name")] ->
  exists response,
    test_database getenv db_name w = (Ok response, w)
    /\ response !! key
       = Some (VStr (if env_set (getenv var) then "✅ Set" else "❌ Not Set"))
    /\ (response !! key = Some (VStr "✅ Set")
        <-> exists s, getenv var = Some s /\ s <> "").
Proof.
  intros Hin. rewrite test_database_run. eexists. split; [reflexivity|].
  rewrite <- env_set_spec.
  assert (forall status connection names,
    report getenv status connection names !! key = Some (set_or_not (getenv var))) as Hk.
  { intros s c n. destruct (report_lookup getenv s c n) as (_ & _ & _ & Hu & Hn & _).
    apply elem_of_cons in Hin as [[= -> ->]|Hin]; [exact Hu|].
    apply list_elem_of_singleton in Hin as [= -> ->]. exact Hn. }
  destruct (db w) as [d|]; [destruct (outage d)|]; rewrite Hk; unfold set_or_not;
    (split; [reflexivity|]); destruct (env_set (getenv var)); split; try done;
    intros [= H]; done.
Qed.

Lemma test_database_env_fields_witness :
  exists response,
    test_database (fun _ => Some "") "aigram" lively = (Ok response, lively)
    /\ response !! "database_url"
       = Some (VStr (if env_set (Some "") then "✅ Set" else "❌ Not Set"))
    /\ (response !! "database_url" = Some (VStr "✅ Set")
        <-> exists s, Some "" = Some s /\ s <> "").
Proof.
  apply (test_database_env_fields (fun _ => Some "") "aigram" lively
           "DATABASE_URL" "database_url").
  apply (bool_decide_unpack _). vm_compute. reflexivity.
Defined.

(** X21. What the diagnostic answer says about the store: without a handle
    it is not connected and lists nothing; with a handle it is connected,
    and either the store answers, and the answer lists collection names of
    the store, each once, all of them or ten when there are more (in
    which order is left to the server), or it does not, and the answer
    reports the first fifty characters of the error and lists nothing. *)
Theorem test_database_store_fields getenv db_name w :
  exists response,
    test_database getenv db_name w = (Ok response, w)
    /\ match db w with
       | None =>
           response !! "database" = Some (VStr "⚠️  Available but not initialized")
           /\ response !! "connection_status" = Some (VStr "Not Connected")
           /\ response !! "collections" = Some (VList [])
       | Some d =>
           response !! "connection_status" = Some (VStr "Connected")
           /\ match outage d with
              | None =>
                  response !! "database" = Some (VStr "✅ Connected & Working")
                  /\ exists names,
                       response !! "collections" = Some (VList (VStr <$> names))
                       /\ NoDup names
                       /\ (forall name, name ∈ names -> is_Some (colls d !! name))
                       /\ length names = Nat.min 10 (size (colls d))
              | Some text =>
                  response !! "database"
                  = Some (VStr ("⚠️  Connected but Error: " +:+ first50 text))
                  /\ response !! "collections" = Some (VList [])
              end
       end.
Proof.
  rewrite test_database_run. eexists. split; [reflexivity|].
  destruct (db w) as [d|]; [destruct (outage d) as [text|]|].
  all: match goal with
       | |- context [report ?g ?s ?c ?n] =>
           destruct (report_lookup g s c n) as (_ & _ & Hs & _ & _ & Hc & Hl)
       end.
  all: rewrite Hs, Hc, Hl; try (repeat split; fail).
  split; [done|]. split; [done|]. exists (take 10 (map_to_list (colls d)).*1).
  split; [done|]. split; [|split].
  - apply (sublist_NoDup _ (map_to_list (colls d)).*1);
      [apply NoDup_fst_map_to_list | apply sublist_take].
  - intros name Hn%subseteq_take.
    apply list_elem_of_fmap in Hn as ([k v] & -> & Hkv%elem_of_map_to_list). by eexists.
  - by rewrite length_take, length_fmap, length_map_to_list.
Qed.

(** X22. The diagnostic answer does not depend on the name of the handle:
    what line 187 stores under [database_name] is always overwritten. *)
Theorem test_database_ignores_name getenv n1 n2 w :
  test_database getenv n1 w = test_database getenv n2 w.
Proof. by rewrite !test_database_run. Qed.
End DiagnosticsFacts.
